(** * A conversational coding agent on a three-node workflow graph

    Shallow embedding of [src/agent.py] (the state class [AgentState] and the
    class [Agent]: [__init__], [initialize], [run], [user_input],
    [model_response], [check_tool_use], [tool_use]) and of [src/main.py]
    ([async_main]).

    - Python exceptions are an error monad; a method that prints, reads or
      calls out runs in a state monad over an explicit world: the
      environment, the terminal, the model provider, the MCP servers, the
      checkpoint database.  Everything that reaches the console is logged
      there, in order.
    - The code leans on three things of langgraph and langchain that are not
      part of the repository: the message classes, the reducer
      [add_messages] of the [messages] channel, and the class [ToolNode].
      They are modelled after their behaviour, next to the code that uses
      them; [tool_use] is stated over any implementation of what it asks of
      [ToolNode], and the library's own is one instance.
    - The compiled graph is run node by node, with the library's recursion
      limit as fuel. *)

From Stdlib Require Import Ascii.
From stdpp Require Import base option list strings gmap fin_maps.

Open Scope string_scope.
Open Scope list_scope.

(** ** Python exceptions *)

Module Py.

(** An exception object: its class and what [str(e)] prints. *)
Record exn := Exn { exn_class : string; exn_str : string }.

(** [except Exception] lets through the classes that derive from
    [BaseException] only. *)
Definition base_only : list string :=
  ["KeyboardInterrupt"; "SystemExit"; "GeneratorExit"; "CancelledError"].

Definition is_Exception (e : exn) : bool :=
  negb (bool_decide (exn_class e ∈ base_only)).

Inductive result (A : Type) : Type :=
| Ok (a : A)
| Raise (e : exn).
Arguments Ok {A} a.
Arguments Raise {A} e.

#[export] Instance result_ret : MRet result := λ A a, Ok a.
#[export] Instance result_bind : MBind result := λ A B k r,
  match r with
  | Ok a => k a
  | Raise e => Raise e
  end.

Definition dq : string := String (Ascii.ascii_of_nat 34) EmptyString.
Definition nl : string := String (Ascii.ascii_of_nat 10) EmptyString.

Definition AttributeError (cls attr : string) : exn :=
  Exn "AttributeError" ("'" +:+ cls +:+ "' object has no attribute '" +:+ attr +:+ "'").
Definition IndexError : exn := Exn "IndexError" "list index out of range".
Definition KeyError (k : string) : exn := Exn "KeyError" ("'" +:+ k +:+ "'").
Definition TypeError (msg : string) : exn := Exn "TypeError" msg.
Definition ValueError (msg : string) : exn := Exn "ValueError" msg.
Definition RuntimeError (msg : string) : exn := Exn "RuntimeError" msg.
Definition EOFError : exn := Exn "EOFError" "EOF when reading a line".

Definition bs : string := String (Ascii.ascii_of_nat 92) EmptyString.

Definition hex_digit (n : nat) : string :=
  match n with
  | 0 => "0" | 1 => "1" | 2 => "2" | 3 => "3" | 4 => "4" | 5 => "5" | 6 => "6"
  | 7 => "7" | 8 => "8" | 9 => "9" | 10 => "a" | 11 => "b" | 12 => "c"
  | 13 => "d" | 14 => "e" | _ => "f"
  end.

Fixpoint has_char (c : ascii) (s : string) : bool :=
  match s with
  | EmptyString => false
  | String c' s' => bool_decide (c' = c) || has_char c s'
  end.

(** The body of [repr(s)] between its quotes: the quote in use and the
    backslash are escaped, tab, line feed and carriage return by their
    letters, the other control characters by [\xhh]; every other byte stands
    for itself (a string is its UTF-8 bytes here, and the characters past
    ASCII are taken to be printable). *)
Fixpoint repr_escape (quote : ascii) (s : string) : string :=
  match s with
  | EmptyString => EmptyString
  | String c s' =>
    let n := Ascii.nat_of_ascii c in
    (if bool_decide (c = quote) || bool_decide (n = 92) then bs +:+ String c EmptyString
     else if bool_decide (n = 9) then bs +:+ "t"
     else if bool_decide (n = 10) then bs +:+ "n"
     else if bool_decide (n = 13) then bs +:+ "r"
     else if bool_decide (n < 32) || bool_decide (n = 127)
          then bs +:+ "x" +:+ hex_digit (n / 16) +:+ hex_digit (n mod 16)
     else String c EmptyString) +:+ repr_escape quote s'
  end.

(** [repr(s)] of a [str]: single quotes, unless the string holds a single
    quote and no double quote. *)
Definition repr_str (s : string) : string :=
  let single := Ascii.ascii_of_nat 39 in
  let double := Ascii.ascii_of_nat 34 in
  let quote := if has_char single s && negb (has_char double s) then double else single in
  String quote (repr_escape quote s +:+ String quote EmptyString).

(** [repr(e)] of an exception raised with its message as the one argument. *)
Definition repr (e : exn) : string := exn_class e +:+ "(" +:+ repr_str (exn_str e) +:+ ")".

(** [xs[-1]] *)
Definition index_last {A} (xs : list A) : result A :=
  match last xs with
  | Some x => Ok x
  | None => Raise IndexError
  end.

(** [xs[0]] *)
Definition index_first {A} (xs : list A) : result A :=
  match xs with
  | x :: _ => Ok x
  | [] => Raise IndexError
  end.

(** [if xs:] on a list *)
Definition truthy {A} (xs : list A) : bool :=
  match xs with
  | [] => false
  | _ :: _ => true
  end.

(** [if not s:] on what [os.getenv] returns: [None] and the empty string are
    both falsy. *)
Definition falsy_str (s : option string) : bool :=
  match s with
  | None => true
  | Some s => bool_decide (s = "")
  end.

(** A state monad with exceptions: a raise keeps the state reached so far,
    as a mutation made before a Python [raise] stays made. *)
Definition St (S A : Type) : Type := S → result A * S.

#[export] Instance St_ret {S} : MRet (St S) := λ A a s, (Ok a, s).
#[export] Instance St_bind {S} : MBind (St S) := λ A B k c s,
  match c s with
  | (Ok a, s') => k a s'
  | (Raise e, s') => (Raise e, s')
  end.

Definition raise {S A} (e : exn) : St S A := λ s, (Raise e, s).
Definition get {S} : St S S := λ s, (Ok s, s).
Definition modify {S} (f : S → S) : St S unit := λ s, (Ok (), f s).
Definition lift {S A} (r : result A) : St S A := λ s, (r, s).

End Py.
Import Py.

(** ** Messages ([langchain_core.messages]) *)

(** [tc["args"]]: an open-ended mapping from argument names to values. *)
Definition Args : Type := list (string * string).

(** A tool call as the model emits it: [tc["name"]], [tc["args"]], [tc["id"]]. *)
Record ToolCall := { tc_name : string; tc_args : Args; tc_id : string }.

(** One block of a list-shaped [content]. *)
Inductive ContentBlock :=
| TextBlock (text : option string) (cache_control : option string)
| ToolUseBlock (name : string) (args : option Args) (id : string)
| OtherBlock (type : string).

(** [content] is either a plain string or a list of typed blocks. *)
Inductive Content :=
| Str (s : string)
| Blocks (bs : list ContentBlock).

(** The four message classes the agent imports, with the attributes the
    agent reads or sets.  Only [AIMessage] has a [tool_calls] attribute (empty
    unless the model asks for tools); only [ToolMessage] has [tool_call_id].
    [id] is [None] until something assigns it. *)
Inductive BaseMessage :=
| AIMessage (content : Content) (tool_calls : list ToolCall) (id : option string)
| HumanMessage (content : Content) (id : option string)
| SystemMessage (content : Content) (id : option string)
| ToolMessage (content : Content) (tool_call_id : string) (id : option string).

Inductive Role := system | user | assistant | tool.

Definition role (m : BaseMessage) : Role :=
  match m with
  | AIMessage _ _ _ => assistant
  | HumanMessage _ _ => user
  | SystemMessage _ _ => system
  | ToolMessage _ _ _ => tool
  end.

Definition class_name (m : BaseMessage) : string :=
  match m with
  | AIMessage _ _ _ => "AIMessage"
  | HumanMessage _ _ => "HumanMessage"
  | SystemMessage _ _ => "SystemMessage"
  | ToolMessage _ _ _ => "ToolMessage"
  end.

Definition content (m : BaseMessage) : Content :=
  match m with
  | AIMessage c _ _ | HumanMessage c _ | SystemMessage c _ | ToolMessage c _ _ => c
  end.

Definition msg_id (m : BaseMessage) : option string :=
  match m with
  | AIMessage _ _ i | HumanMessage _ i | SystemMessage _ i | ToolMessage _ _ i => i
  end.

Definition set_id (i : string) (m : BaseMessage) : BaseMessage :=
  match m with
  | AIMessage c tcs _ => AIMessage c tcs (Some i)
  | HumanMessage c _ => HumanMessage c (Some i)
  | SystemMessage c _ => SystemMessage c (Some i)
  | ToolMessage c t _ => ToolMessage c t (Some i)
  end.

(** [m.tool_calls]: an attribute lookup, which fails on the classes that do
    not declare the attribute. *)
Definition get_tool_calls (m : BaseMessage) : result (list ToolCall) :=
  match m with
  | AIMessage _ tcs _ => Ok tcs
  | _ => Raise (AttributeError (class_name m) "tool_calls")
  end.

(** [m.tool_call_id], for the tool-role messages. *)
Definition call_id (m : BaseMessage) : option string :=
  match m with
  | ToolMessage _ t _ => Some t
  | _ => None
  end.

(** ** The workflow state ([AgentState]) *)

Record AgentState := { messages : list BaseMessage }.


(** ** The reducer of the [messages] channel ([add_messages])

    [AgentState.messages] is annotated with langgraph's [add_messages]: what a
    node returns under ["messages"] is merged into the stored list by message
    id.  A message arriving with an id already stored replaces the stored
    one in place; any other message goes to the end.  Messages without an id
    are given [str(uuid.uuid4())] first. *)

Fixpoint u_string (n : nat) : string :=
  match n with
  | 0 => EmptyString
  | S n => String "u"%char (u_string n)
  end.

(** [uuid.uuid4()], idealised as collision-free: the identifier returned is
    none of those in use. *)
Definition uuid4 (used : list string) : string :=
  u_string (S (max_list (String.length <$> used))).

Definition ids_of (ms : list BaseMessage) : list string := omap msg_id ms.

(** [for m in ms: if m.id is None: m.id = str(uuid.uuid4())] *)
Fixpoint assign_ids (used : list string) (ms : list BaseMessage)
  : list BaseMessage * list string :=
  match ms with
  | [] => ([], used)
  | m :: ms' =>
    match msg_id m with
    | Some _ =>
      let '(r, used') := assign_ids used ms' in (m :: r, used')
    | None =>
      let i := uuid4 used in
      let '(r, used') := assign_ids (i :: used) ms' in (set_id i m :: r, used')
    end
  end.

(** [{m.id: i for i, m in enumerate(merged)}], counting from [i]. *)
Fixpoint index_by_id (i : nat) (ms : list BaseMessage)
  (d : gmap (option string) nat) : gmap (option string) nat :=
  match ms with
  | [] => d
  | m :: ms' => index_by_id (S i) ms' (<[msg_id m := i]> d)
  end.

(** One turn of [for m in right]: replace at the stored index or append. *)
Definition merge_one (acc : list BaseMessage * gmap (option string) nat)
  (m : BaseMessage) : list BaseMessage * gmap (option string) nat :=
  let '(merged, merged_by_id) := acc in
  match merged_by_id !! msg_id m with
  | Some existing_idx => (<[existing_idx := m]> merged, merged_by_id)
  | None => (merged ++ [m], <[msg_id m := length merged]> merged_by_id)
  end.

Definition add_messages (left right : list BaseMessage) : list BaseMessage :=
  let '(left', used) := assign_ids (ids_of left ++ ids_of right) left in
  let '(right', _) := assign_ids used right in
  (foldl merge_one (left', index_by_id 0 left' ∅) right').1.

(** ** Tools and [langgraph.prebuilt.ToolNode] *)

(** A tool: its [name] and what invoking it on arguments gives, a content or
    an exception.  What a tool does besides (to files, to the network) is not
    part of this model: nothing below says what a tool leaves behind. *)
Record BaseTool := { name : string; invoke : Args → result Content }.

(** [{t.name: t for t in tools}]: a later tool takes the name of an earlier
    one. *)
Definition by_name (tools : list BaseTool) : gmap string BaseTool :=
  foldl (λ d t, <[name t := t]> d) ∅ tools.

(** What [tool_use] asks of the [ToolNode] class: a constructor over a list
    of tools (the list may hold [None], what [dict.get] returns for a missing
    name), and [ainvoke] on a whole state, giving the list under
    ["messages"] of its result. *)
Class ToolNodeAPI := {
  tool_node : Type;
  ToolNode : list (option BaseTool) → result tool_node;
  ainvoke : tool_node → AgentState → result (list BaseMessage);
}.

Fixpoint mapM {A B} (f : A → result B) (l : list A) : result (list B) :=
  match l with
  | [] => Ok []
  | a :: l' => b ← f a; bs ← mapM f l'; Ok (b :: bs)
  end.

Module langgraph.

(** The constructor registers every tool under its name; what is not a tool
    is first passed to the [tool] decorator, and [None] comes back from it as
    a bare function, which has no [name]. *)
Definition init (tools : list (option BaseTool)) : result (list BaseTool) :=
  mapM (λ t, match t with
             | Some t => Ok t
             | None => Raise (AttributeError "function" "name")
             end) tools.

Definition invalid_tool_name (requested : string) (available : list string) : string :=
  "Error: " +:+ requested +:+ " is not a valid tool, try one of ["
  +:+ String.concat ", " available +:+ "].".

(** One tool call of the last assistant message: a call to a name the node
    does not hold is answered by an error message; a failure of the tool is
    answered by an error message when [handle_tool_errors] is on and is
    raised again otherwise.  Every answer carries the id of its call. *)
Definition run_one (handle_tool_errors : bool) (tools : list BaseTool)
  (call : ToolCall) : result BaseMessage :=
  match by_name tools !! tc_name call with
  | None =>
    Ok (ToolMessage (Str (invalid_tool_name (tc_name call) (name <$> tools)))
          (tc_id call) None)
  | Some t =>
    match invoke t (tc_args call) with
    | Ok out => Ok (ToolMessage out (tc_id call) None)
    | Raise e =>
      if handle_tool_errors && is_Exception e
      then Ok (ToolMessage
                 (Str ("Error: " +:+ repr e +:+ nl +:+ " Please fix your mistakes."))
                 (tc_id call) None)
      else Raise e
    end
  end.

(** [ainvoke] reads the tool calls of the last message of the state it is
    given and answers all of them, in their order. *)
Definition answer_all (handle_tool_errors : bool) (tools : list BaseTool)
  (input : AgentState) : result (list BaseMessage) :=
  match last (messages input) with
  | None => Raise (ValueError "No message found in input")
  | Some (AIMessage _ tcs _) => mapM (run_one handle_tool_errors tools) tcs
  | Some _ => Raise (ValueError "Last message is not an AIMessage")
  end.

(** The library class, for either setting of [handle_tool_errors]: releases
    differ in the default. *)
Definition api (handle_tool_errors : bool) : ToolNodeAPI :=
  {| tool_node := list BaseTool;
     ToolNode := init;
     ainvoke := answer_all handle_tool_errors |}.

End langgraph.

(** ** The world around the agent *)

(** What the model provider sends back: the fields of an [AIMessage]. *)
Record Completion := {
  c_content : Content;
  c_tool_calls : list ToolCall;
  c_id : option string;
}.

(** What reaches the terminal and what leaves for the collaborators, in the
    order it happens. *)
Inductive Event :=
| EvInitializing
| EvMcpTool (tool : string)
| EvLoaded (total local_n mcp_n : nat)
| EvBindTools (tools : list string)
| EvOpenCheckpointer (db_path : string)
| EvCompile
| EvReady
| EvUserInput
| EvInput (line : string)
| EvInvokeModel (tools : list string) (prompt : list BaseMessage)
| EvAssistant (text : Content)
| EvToolUse (tool : string) (args : option Args)
| EvInvoking (tool : string) (args : Args)
| EvFound (tool : option string)
| EvToolResultRaw (msgs : list BaseMessage)
| EvToolResult (text : string)
| EvToolError (tool : string) (e : string)
| EvMermaidError (e : string)
| EvMermaidText
| EvCloseCheckpointer.

Record World := {
  os_environ : gmap string string;
  (** the entries of the [.env] file, none when there is no file *)
  dotenv_file : list (string * string);
  os_getcwd : string;
  (** the lines the user is going to type *)
  stdin : list string;
  (** the model provider, asked with the bound tools and the prompt *)
  anthropic : list string → list BaseMessage → result Completion;
  (** [MultiServerMCPClient.get_tools], given the GitHub token *)
  mcp_servers : option string → result (list BaseTool);
  (** the one local tool, of module [tools.run_unit_tests_tool] *)
  run_unit_tests : BaseTool;
  (** opening the checkpoint database at a path *)
  sqlite_open : string → result unit;
  (** the conversation saved per thread id *)
  checkpoints : gmap string (list BaseMessage);
  draw_mermaid_png : result unit;
  console : list Event;
}.

Definition with_environ (env : gmap string string) (w : World) : World :=
  {| os_environ := env; dotenv_file := dotenv_file w; os_getcwd := os_getcwd w;
     stdin := stdin w; anthropic := anthropic w; mcp_servers := mcp_servers w;
     run_unit_tests := run_unit_tests w; sqlite_open := sqlite_open w;
     checkpoints := checkpoints w; draw_mermaid_png := draw_mermaid_png w;
     console := console w |}.

Definition with_stdin (lines : list string) (w : World) : World :=
  {| os_environ := os_environ w; dotenv_file := dotenv_file w; os_getcwd := os_getcwd w;
     stdin := lines; anthropic := anthropic w; mcp_servers := mcp_servers w;
     run_unit_tests := run_unit_tests w; sqlite_open := sqlite_open w;
     checkpoints := checkpoints w; draw_mermaid_png := draw_mermaid_png w;
     console := console w |}.

Definition with_checkpoints (c : gmap string (list BaseMessage)) (w : World) : World :=
  {| os_environ := os_environ w; dotenv_file := dotenv_file w; os_getcwd := os_getcwd w;
     stdin := stdin w; anthropic := anthropic w; mcp_servers := mcp_servers w;
     run_unit_tests := run_unit_tests w; sqlite_open := sqlite_open w;
     checkpoints := c; draw_mermaid_png := draw_mermaid_png w;
     console := console w |}.

Definition with_console (evs : list Event) (w : World) : World :=
  {| os_environ := os_environ w; dotenv_file := dotenv_file w; os_getcwd := os_getcwd w;
     stdin := stdin w; anthropic := anthropic w; mcp_servers := mcp_servers w;
     run_unit_tests := run_unit_tests w; sqlite_open := sqlite_open w;
     checkpoints := checkpoints w; draw_mermaid_png := draw_mermaid_png w;
     console := evs |}.

Definition emit (ev : Event) : St World unit :=
  modify (λ w, with_console (console w ++ [ev]) w).

(** [load_dotenv()], which does not override: the entries of [.env] are
    read in their order, a later entry taking the place of an earlier one of
    the same name, and every name the environment did not hold is set. *)
Definition dotenv_merge (environ : gmap string string)
  (entries : list (string * string)) : gmap string string :=
  foldl (λ env kv, match environ !! kv.1 with
                   | Some _ => env
                   | None => <[kv.1 := kv.2]> env
                   end) environ entries.

Definition load_dotenv : St World unit :=
  modify (λ w, with_environ (dotenv_merge (os_environ w) (dotenv_file w)) w).

(** [os.getenv(key)] *)
Definition getenv (key : string) : St World (option string) :=
  λ w, (Ok (os_environ w !! key), w).

(** [os.path.join(a, b)] for a relative [b]. *)
Fixpoint ends_with_slash (a : string) : bool :=
  match a with
  | EmptyString => true
  | String c EmptyString => bool_decide (c = "/"%char)
  | String _ a' => ends_with_slash a'
  end.

Definition path_join (a b : string) : string :=
  if ends_with_slash a then a +:+ b else a +:+ "/" +:+ b.

(** [os.getcwd()] *)
Definition getcwd : St World string := λ w, (Ok (os_getcwd w), w).

(** [console.input("> ")]: the next line typed, or [EOFError] at the end of
    the input. *)
Definition console_input : St World string :=
  λ w, match stdin w with
       | line :: rest => (Ok line, with_console (console w ++ [EvInput line]) (with_stdin rest w))
       | [] => (Raise EOFError, w)
       end.

(** ** The workflow graph ([StateGraph]) *)

(** The bound methods the graph is given. *)
Inductive NodeFn := self_user_input | self_model_response | self_tool_use.
Inductive RouterFn := self_check_tool_use.

Record StateGraph := {
  nodes : list (string * NodeFn);
  entry_point : option string;
  edges : list (string * string);
  branches : list (string * (RouterFn * list (string * string)));
}.

Definition empty_graph : StateGraph :=
  {| nodes := []; entry_point := None; edges := []; branches := [] |}.

Definition add_node (key : string) (f : NodeFn) (g : StateGraph) : StateGraph :=
  {| nodes := nodes g ++ [(key, f)]; entry_point := entry_point g;
     edges := edges g; branches := branches g |}.

Definition set_entry_point (key : string) (g : StateGraph) : StateGraph :=
  {| nodes := nodes g; entry_point := Some key;
     edges := edges g; branches := branches g |}.

Definition add_edge (start_key end_key : string) (g : StateGraph) : StateGraph :=
  {| nodes := nodes g; entry_point := entry_point g;
     edges := edges g ++ [(start_key, end_key)]; branches := branches g |}.

Definition add_conditional_edges (source : string) (path : RouterFn)
  (path_map : list (string * string)) (g : StateGraph) : StateGraph :=
  {| nodes := nodes g; entry_point := entry_point g; edges := edges g;
     branches := branches g ++ [(source, (path, path_map))] |}.

(** Lookup in a list of pairs, first match. *)
Fixpoint assoc {V} (k : string) (l : list (string * V)) : option V :=
  match l with
  | [] => None
  | (k', v) :: l' => if decide (k = k') then Some v else assoc k l'
  end.

(** ** The agent ([class Agent]) *)

Record ChatAnthropic := {
  model_name : string;
  temperature : string;
  max_tokens : nat;
  api_key : string;
}.

(** [workflow.compile(checkpointer=...)] *)
Record CompiledGraph := { graph : StateGraph; saver : string }.

(** An [Agent] object.  The attributes that [initialize] sets are absent
    before it. *)
Record Agent := {
  _initialized : bool;
  model : ChatAnthropic;
  workflow : StateGraph;
  tools : option (list BaseTool);
  model_with_tools : option (ChatAnthropic * list BaseTool);
  _checkpointer_ctx : option string;
  checkpointer : option string;
  agent : option CompiledGraph;
}.

Definition set_tools (ts : list BaseTool) (self : Agent) : Agent :=
  {| _initialized := _initialized self; model := model self; workflow := workflow self;
     tools := Some ts; model_with_tools := model_with_tools self;
     _checkpointer_ctx := _checkpointer_ctx self; checkpointer := checkpointer self;
     agent := agent self |}.

Definition set_initialized (b : bool) (self : Agent) : Agent :=
  {| _initialized := b; model := model self; workflow := workflow self;
     tools := tools self; model_with_tools := model_with_tools self;
     _checkpointer_ctx := _checkpointer_ctx self; checkpointer := checkpointer self;
     agent := agent self |}.

Definition set_model_with_tools (m : ChatAnthropic * list BaseTool) (self : Agent) : Agent :=
  {| _initialized := _initialized self; model := model self; workflow := workflow self;
     tools := tools self; model_with_tools := Some m;
     _checkpointer_ctx := _checkpointer_ctx self; checkpointer := checkpointer self;
     agent := agent self |}.

Definition set_checkpointer_ctx (p : string) (self : Agent) : Agent :=
  {| _initialized := _initialized self; model := model self; workflow := workflow self;
     tools := tools self; model_with_tools := model_with_tools self;
     _checkpointer_ctx := Some p; checkpointer := checkpointer self;
     agent := agent self |}.

Definition set_checkpointer (p : string) (self : Agent) : Agent :=
  {| _initialized := _initialized self; model := model self; workflow := workflow self;
     tools := tools self; model_with_tools := model_with_tools self;
     _checkpointer_ctx := _checkpointer_ctx self; checkpointer := Some p;
     agent := agent self |}.

Definition set_agent (g : CompiledGraph) (self : Agent) : Agent :=
  {| _initialized := _initialized self; model := model self; workflow := workflow self;
     tools := tools self; model_with_tools := model_with_tools self;
     _checkpointer_ctx := _checkpointer_ctx self; checkpointer := checkpointer self;
     agent := Some g |}.

(** [self.attr] for an attribute that may not be set yet. *)
Definition getattr {S A} (attr : string) (v : option A) : St S A :=
  match v with
  | Some a => mret a
  | None => raise (AttributeError "Agent" attr)
  end.

Definition system_text : string :=
"You are a specialised agent for maintaining and developing codebases.
            ## Development Guidelines:

            1. **Test Failures:**
            - When tests fail, fix the implementation first, not the tests.
            - Tests represent expected behavior; implementation should conform to tests
            - Only modify tests if they clearly don't match specifications

            2. **Code Changes:**
            - Make the smallest possible changes to fix issues
            - Focus on fixing the specific problem rather than rewriting large portions
            - Add unit tests for all new functionality before implementing it

            3. **Best Practices:**
            - Keep functions small with a single responsibility
            - Implement proper error handling with appropriate exceptions
            - Be mindful of configuration dependencies in tests

            Ask for clarification when needed. Remember to examine test failure messages carefully to understand the root cause before making any changes.".

Definition greeting : BaseMessage :=
  AIMessage (Str "What can I do for you?") [] None.

Definition missing_key : string :=
  "Missing ANTHROPIC_API_KEY in environment. Set it in .env or your shell.".

(** [Agent.__init__] *)
Definition __init__ : St World Agent :=
  load_dotenv;;
  api_key ← getenv "ANTHROPIC_API_KEY";
  if falsy_str api_key then raise (RuntimeError missing_key)
  else
    let model :=
      {| model_name := "claude-3-7-sonnet-latest"; temperature := "0.3";
         max_tokens := 4096; api_key := default "" api_key |} in
    let workflow :=
      add_conditional_edges "model_response" self_check_tool_use
        [("tool_use", "tool_use"); ("user_input", "user_input")]
      (add_edge "tool_use" "model_response"
      (add_edge "user_input" "model_response"
      (set_entry_point "user_input"
      (add_node "tool_use" self_tool_use
      (add_node "model_response" self_model_response
      (add_node "user_input" self_user_input empty_graph)))))) in
    mret {| _initialized := false; model := model; workflow := workflow;
            tools := None; model_with_tools := None; _checkpointer_ctx := None;
            checkpointer := None; agent := None |}.

(** [get_mcp_tools] *)
Definition get_mcp_tools : St World (list BaseTool) :=
  token ← getenv "GITHUB_PERSONAL_ACCESS_TOKEN";
  w ← get;
  mcp_tools ← lift (mcp_servers w token);
  foldr (λ tb k, emit (EvMcpTool (name tb));; k) (mret ()) mcp_tools;;
  mret mcp_tools.

(** A method that assigns attributes of [self] runs on the object and the
    world together. *)
Definition on_world {A} (c : St World A) : St (Agent * World) A :=
  λ s, let '(r, w) := c s.2 in (r, (s.1, w)).

Definition on_self (f : Agent → Agent) : St (Agent * World) unit :=
  modify (λ s, (f s.1, s.2)).

(** [Agent.initialize] *)
Definition initialize : St (Agent * World) unit :=
  s ← get;
  if _initialized s.1 then mret ()
  else
    on_world (emit EvInitializing);;
    local_tools ← on_world (w ← get; mret [run_unit_tests w]);
    mcp_tools ← on_world get_mcp_tools;
    on_self (set_tools (local_tools ++ mcp_tools));;
    on_world (emit (EvLoaded (length (local_tools ++ mcp_tools))
                             (length local_tools) (length mcp_tools)));;
    on_self (set_initialized true);;
    s ← get;
    ts ← getattr "tools" (tools s.1);
    on_world (emit (EvBindTools (name <$> ts)));;
    on_self (set_model_with_tools (model s.1, ts));;
    cwd ← on_world getcwd;
    let db_path := path_join cwd "checkpoints.db" in
    on_self (set_checkpointer_ctx db_path);;
    on_world (emit (EvOpenCheckpointer db_path));;
    w ← on_world get;
    on_world (lift (sqlite_open w db_path));;
    on_self (set_checkpointer db_path);;
    s ← get;
    on_world (emit EvCompile);;
    on_self (set_agent {| graph := workflow s.1; saver := db_path |});;
    on_world (emit EvReady).

(** *** Node [user_input] *)

Definition user_input (self : Agent) (state : AgentState) : St World AgentState :=
  emit EvUserInput;;
  user_input ← console_input;
  mret {| messages := [HumanMessage (Str user_input) None] |}.

(** *** Node [model_response] *)

(** [self.model_with_tools.invoke(messages)]: the provider is asked with the
    bound tools and the prompt; what it sends back is an [AIMessage]. *)
Definition invoke_model (m : ChatAnthropic * list BaseTool)
  (prompt : list BaseMessage) : St World BaseMessage :=
  emit (EvInvokeModel (name <$> m.2) prompt);;
  w ← get;
  c ← lift (anthropic w (name <$> m.2) prompt);
  mret (AIMessage (c_content c) (c_tool_calls c) (c_id c)).

(** The panels a response is shown in. *)
Definition render_block (item : ContentBlock) : St World unit :=
  match item with
  | TextBlock text _ =>
    let text := default "" text in
    if bool_decide (text = "") then mret () else emit (EvAssistant (Str text))
  | ToolUseBlock name args _ => emit (EvToolUse name args)
  | OtherBlock _ => mret ()
  end.

Definition render (c : Content) : St World unit :=
  match c with
  | Blocks items => foldr (λ item k, render_block item;; k) (mret ()) items
  | Str _ => emit (EvAssistant c)
  end.

Definition model_response (self : Agent) (state : AgentState) : St World AgentState :=
  cwd ← getcwd;
  let messages_ :=
    [ SystemMessage (Blocks [TextBlock (Some system_text) (Some "ephemeral")]) None;
      HumanMessage (Str ("Working directory: " +:+ cwd)) None ]
    ++ messages state in
  m ← getattr "model_with_tools" (model_with_tools self);
  response ← invoke_model m messages_;
  render (content response);;
  mret {| messages := [response] |}.

(** *** The conditional router [check_tool_use] *)

Definition check_tool_use (self : Agent) (state : AgentState) : result string :=
  m ← index_last (messages state);
  tcs ← get_tool_calls m;
  if truthy tcs then Ok "tool_use" else Ok "user_input".

(** *** Node [tool_use] *)

(** The message of the [except] branch: the tool's name, the exception, and
    the id of the call at hand. *)
Definition tool_error (tc : ToolCall) (e : exn) : BaseMessage :=
  ToolMessage
    (Str ("ERROR: Exception during tool '" +:+ tc_name tc +:+ "' execution: " +:+ exn_str e))
    (tc_id tc) None.

(** ["\n" + content + "\n"]: [+] is defined between strings only. *)
Definition framed (c : Content) : result string :=
  match c with
  | Str s => Ok (nl +:+ s +:+ nl)
  | Blocks _ =>
    Raise (TypeError ("can only concatenate str (not " +:+ dq +:+ "list" +:+ dq +:+ ") to str"))
  end.

Section tool_use.
Context `{ToolNodeAPI}.

(** [except Exception as e]: the error message is appended and shown; what
    is not an [Exception] goes on up. *)
Definition handler (tc : ToolCall) (response : list BaseMessage) (e : exn)
  : St World (list BaseMessage) :=
  if is_Exception e then
    emit (EvToolError (tc_name tc) (exn_str e));;
    mret (response ++ [tool_error tc e])
  else raise e.

(** The [try] statement of one turn of the loop, on the [response]
    collected so far.  An append made before a failure stays made. *)
Definition attempt (node : tool_node) (state : AgentState) (tc : ToolCall)
  (response : list BaseMessage) : St World (list BaseMessage) :=
  match ainvoke node state with
  | Raise e => handler tc response e
  | Ok msgs =>
    emit (EvToolResultRaw msgs);;
    match index_first msgs with
    | Raise e => handler tc response e
    | Ok m =>
      match framed (content m) with
      | Raise e => handler tc (response ++ [m]) e
      | Ok text => emit (EvToolResult text);; mret (response ++ [m])
      end
    end
  end.

(** [for tc in state.messages[-1].tool_calls] *)
Fixpoint tool_use_loop (tools_by_name : gmap string BaseTool) (state : AgentState)
  (tcs : list ToolCall) (response : list BaseMessage) : St World (list BaseMessage) :=
  match tcs with
  | [] => mret response
  | tc :: tcs' =>
    let tool_name := tc_name tc in
    let tool_args := tc_args tc in
    emit (EvInvoking tool_name tool_args);;
    let tool := tools_by_name !! tool_name in
    emit (EvFound (name <$> tool));;
    node ← lift (ToolNode [tool]);
    response ← attempt node state tc response;
    tool_use_loop tools_by_name state tcs' response
  end.

Definition tool_use (self : Agent) (state : AgentState) : St World AgentState :=
  ts ← getattr "tools" (tools self);
  let tools_by_name := by_name ts in
  m ← lift (index_last (messages state));
  tcs ← lift (get_tool_calls m);
  response ← tool_use_loop tools_by_name state tcs [];
  mret {| messages := response |}.

(** ** Running the compiled graph *)

Definition run_node (self : Agent) (f : NodeFn) : AgentState → St World AgentState :=
  match f with
  | self_user_input => user_input self
  | self_model_response => model_response self
  | self_tool_use => tool_use self
  end.

(** Where the graph goes after a node: along its fixed edge, or where the
    router of its conditional edge says; nowhere when it has neither. *)
Definition successor (self : Agent) (g : StateGraph) (node : string)
  (state : AgentState) : result (option string) :=
  match assoc node (edges g) with
  | Some target => Ok (Some target)
  | None =>
    match assoc node (branches g) with
    | Some (self_check_tool_use, path_map) =>
      key ← check_tool_use self state;
      match assoc key path_map with
      | Some target => Ok (Some target)
      | None => Raise (KeyError key)
      end
    | None => Ok None
    end
  end.

Definition save (thread_id : string) (state : AgentState) : St World unit :=
  modify (λ w, with_checkpoints (<[thread_id := messages state]> (checkpoints w)) w).

Definition GraphRecursionError : exn :=
  Exn "GraphRecursionError" "Recursion limit reached without hitting a stop condition.".

(** One node after the other: the node's function runs on the state, the
    reducer merges what it returns into the state, the state is saved, and
    the edges give the next node.  The run ends with an error once
    [recursion_limit] nodes have run. *)
Fixpoint steps (self : Agent) (g : CompiledGraph) (thread_id : string)
  (recursion_limit : nat) (node : string) (state : AgentState) : St World AgentState :=
  match recursion_limit with
  | 0 => raise GraphRecursionError
  | S limit =>
    f ← lift (match assoc node (nodes (graph g)) with
              | Some f => Ok f
              | None => Raise (KeyError node)
              end);
    update ← run_node self f state;
    let state' := {| messages := add_messages (messages state) (messages update) |} in
    save thread_id state';;
    next ← lift (successor self (graph g) node state');
    match next with
    | Some node' => steps self g thread_id limit node' state'
    | None => mret state'
    end
  end.

Definition default_recursion_limit : nat := 25.

(** [graph.ainvoke(input, config)]: the state saved under the thread id is read
    back, the input is merged into it, and the graph starts at its entry
    point. *)
Definition graph_ainvoke (self : Agent) (g : CompiledGraph) (input : list BaseMessage)
  (thread_id : string) : St World AgentState :=
  w ← get;
  let state :=
    {| messages := add_messages (default [] (checkpoints w !! thread_id)) input |} in
  save thread_id state;;
  match entry_point (graph g) with
  | Some node => steps self g thread_id default_recursion_limit node state
  | None => raise (ValueError "Graph must have an entrypoint")
  end.

(** [Agent.run] *)
Definition run (self : Agent) : St World AgentState :=
  g ← getattr "agent" (agent self);
  graph_ainvoke self g [greeting] "1".

End tool_use.

(** [Agent.close_checkpointer] *)
Definition close_checkpointer (self : Agent) : St World unit :=
  match _checkpointer_ctx self with
  | Some _ => emit EvCloseCheckpointer
  | None => mret ()
  end.

(** [Agent.print_mermaid_workflow] *)
Definition print_mermaid_workflow (self : Agent) : St World unit :=
  w ← get;
  match (getattr "agent" (agent self) : St World CompiledGraph) w with
  | (Ok _, _) =>
    match draw_mermaid_png w with
    | Ok _ => mret ()
    | Raise e =>
      if is_Exception e then emit (EvMermaidError (exn_str e));; emit EvMermaidText
      else raise e
    end
  | (Raise e, _) =>
    emit (EvMermaidError (exn_str e));;
    _ ← (getattr "agent" (agent self) : St World CompiledGraph);
    emit EvMermaidText
  end.

(** ** [main.async_main] *)

Definition async_main `{ToolNodeAPI} : St World unit :=
  self ← __init__;
  self ← (λ w, let '(r, s) := initialize (self, w) in (_ ← r; Ok s.1, s.2));
  print_mermaid_workflow self;;
  run self;;
  close_checkpointer self.

(** ** Sample inputs *)

Definition passing_tool : BaseTool :=
  {| name := "run_unit_tests"; invoke := λ _, Ok (Str "2 passed") |}.

Definition broken_tool : BaseTool :=
  {| name := "broken_tool"; invoke := λ _, Raise (ValueError "boom") |}.

(** A tool whose result is a list of content blocks. *)
Definition listing_tool : BaseTool :=
  {| name := "list_files";
     invoke := λ _, Ok (Blocks [TextBlock (Some "a.txt") None; TextBlock (Some "b.txt") None]) |}.

(** A provider that greets, under an id no message of the prompt has. *)
Definition plain_reply (tools : list string) (prompt : list BaseMessage)
  : result Completion :=
  Ok {| c_content := Str "Hi there!"; c_tool_calls := [];
        c_id := Some (uuid4 (ids_of prompt)) |}.

Definition sample_world : World :=
  {| os_environ := {[ "ANTHROPIC_API_KEY" := "sk-test" ]};
     dotenv_file := [];
     os_getcwd := "/work";
     stdin := [""; "hello"];
     anthropic := plain_reply;
     mcp_servers := λ _, Ok [broken_tool];
     run_unit_tests := passing_tool;
     sqlite_open := λ _, Ok ();
     checkpoints := ∅;
     draw_mermaid_png := Ok ();
     console := [] |}.

(** The same machine without the credential. *)
Definition bare_world : World := with_environ ∅ sample_world.

Definition blank_agent : Agent :=
  {| _initialized := false;
     model := {| model_name := ""; temperature := ""; max_tokens := 0; api_key := "" |};
     workflow := empty_graph; tools := None; model_with_tools := None;
     _checkpointer_ctx := None; checkpointer := None; agent := None |}.

(** The agent [main] holds after [Agent()], and the one it holds once
    [initialize()] is through. *)
Definition sample_agent0 : Agent :=
  match __init__ sample_world with
  | (Ok self, _) => self
  | (Raise _, _) => blank_agent
  end.

Definition sample_agent : Agent :=
  (initialize (sample_agent0, (__init__ sample_world).2)).2.1.

(** Its compiled graph. *)
Definition sample_graph : CompiledGraph :=
  {| graph := workflow sample_agent; saver := "/work/checkpoints.db" |}.

Definition call (tool id : string) : ToolCall :=
  {| tc_name := tool; tc_args := [("test_path", "tests")]; tc_id := id |}.

Definition asks (tcs : list ToolCall) : AgentState :=
  {| messages :=
       [ AIMessage (Str "What can I do for you?") [] (Some "u");
         HumanMessage (Str "run the tests") (Some "uu");
         AIMessage (Str "") tcs (Some "msg_02") ] |}.

(** The model events of a console log: the prompts the provider was sent. *)
Definition prompts (evs : list Event) : list (list BaseMessage) :=
  omap (λ ev, match ev with
              | EvInvokeModel _ prompt => Some prompt
              | _ => None
              end) evs.

(** Every stored message has an id: so it is of every list the reducer has
    produced. *)
Definition has_ids (ms : list BaseMessage) : Prop :=
  Forall (λ m, is_Some (msg_id m)) ms.

(** The id of [m], when it has one, is none of [used]. *)
Definition fresh_for (used : list string) (m : BaseMessage) : Prop :=
  ∀ i, msg_id m = Some i → i ∉ used.

(** The provider names its message by an id that no message of the prompt
    has. *)
Definition provider_ids_new (w : World) : Prop :=
  ∀ tools prompt c, anthropic w tools prompt = Ok c →
    ∀ i, c_id c = Some i → i ∉ ids_of prompt.

(** The messages a [ToolNode] builds have no id of the conversation. *)
Definition tool_node_ids_new `{ToolNodeAPI} : Prop :=
  ∀ node state msgs, ainvoke node state = Ok msgs →
    Forall (fresh_for (ids_of (messages state))) msgs.

(** The world once [evs] have reached the console. *)
Definition logged (evs : list Event) (w : World) : World :=
  with_console (console w ++ evs) w.

(** A computation that only adds to the console. *)
Definition extends {A} (c : St World A) : Prop :=
  ∀ w, ∃ evs, console (c w).2 = console w ++ evs.

(** What a step of the graph does with what its node returned: merge, save,
    and go where the edges say. *)
Definition after_node `{ToolNodeAPI} (self : Agent) (g : CompiledGraph)
  (thread_id : string) (limit : nat) (node : string) (state update : AgentState)
  : St World AgentState :=
  let state' := {| messages := add_messages (messages state) (messages update) |} in
  save thread_id state';;
  next ← lift (successor self (graph g) node state');
  match next with
  | Some node' => steps self g thread_id limit node' state'
  | None => mret state'
  end.

(** More sample worlds: the sample world with another environment, [.env]
    file, provider, MCP client or database. *)
Definition sample_with (env : gmap string string) (entries : list (string * string))
  (lines : list string)
  (llm : list string → list BaseMessage → result Completion)
  (mcp : option string → result (list BaseTool))
  (db : string → result unit) : World :=
  {| os_environ := env; dotenv_file := entries; os_getcwd := "/work";
     stdin := lines; anthropic := llm; mcp_servers := mcp;
     run_unit_tests := passing_tool; sqlite_open := db;
     checkpoints := ∅; draw_mermaid_png := Ok (); console := [] |}.

Definition ConnectionError : exn := Exn "ConnectionError" "docker is not running".
Definition OperationalError : exn := Exn "OperationalError" "unable to open database file".
Definition APIError : exn := Exn "APIConnectionError" "Connection error.".

(** The key is in [.env] only. *)
Definition dotenv_world : World :=
  sample_with ∅ [("GITHUB_PERSONAL_ACCESS_TOKEN", "ghp"); ("ANTHROPIC_API_KEY", "sk-file")]
    ["hello"] plain_reply (λ _, Ok []) (λ _, Ok ()).

(** The environment holds an empty key, [.env] a good one. *)
Definition empty_key_world : World :=
  sample_with {[ "ANTHROPIC_API_KEY" := "" ]} [("ANTHROPIC_API_KEY", "sk-file")]
    ["hello"] plain_reply (λ _, Ok []) (λ _, Ok ()).

(** The MCP servers cannot be reached. *)
Definition offline_world : World :=
  sample_with {[ "ANTHROPIC_API_KEY" := "sk-test" ]} [] ["hello"] plain_reply
    (λ _, Raise ConnectionError) (λ _, Ok ()).

(** The checkpoint database cannot be opened. *)
Definition locked_world : World :=
  sample_with {[ "ANTHROPIC_API_KEY" := "sk-test" ]} [] ["hello"] plain_reply
    (λ _, Ok [broken_tool]) (λ _, Raise OperationalError).

(** The provider cannot be reached. *)
Definition unreachable_world : World :=
  sample_with {[ "ANTHROPIC_API_KEY" := "sk-test" ]} [] ["hello"]
    (λ _ _, Raise APIError) (λ _, Ok [broken_tool]) (λ _, Ok ()).

(** The provider names every response ["u"]. *)
Definition reusing_world : World :=
  sample_with {[ "ANTHROPIC_API_KEY" := "sk-test" ]} [] ["hello"]
    (λ _ _, Ok {| c_content := Str "Hi there!"; c_tool_calls := []; c_id := Some "u" |})
    (λ _, Ok [broken_tool]) (λ _, Ok ()).

(** A computation that changes nothing of the world but the console, and
    asks the provider nothing. *)
Definition console_only {A} (c : St World A) : Prop :=
  ∀ w, ∃ evs, (c w).2 = logged evs w ∧ prompts evs = [].

(** A call that [tool_use] can answer: its tool is held, a node is built for
    it, and what the invocation may raise is an [Exception]. *)
Definition answerable `{ToolNodeAPI} (tools_by_name : gmap string BaseTool)
  (state : AgentState) (tc : ToolCall) : Prop :=
  ∃ t node, tools_by_name !! tc_name tc = Some t
            ∧ ToolNode [Some t] = Ok node
            ∧ ∀ e, ainvoke node state = Raise e → is_Exception e = true.

(** A call whose node, when it returns, returns at least one message, the
    first with a string for content. *)
Definition plainly_answered `{ToolNodeAPI} (tools_by_name : gmap string BaseTool)
  (state : AgentState) (tc : ToolCall) : Prop :=
  ∀ t node msgs, tools_by_name !! tc_name tc = Some t →
    ToolNode [Some t] = Ok node →
    ainvoke node state = Ok msgs →
    ∃ m rest s, msgs = m :: rest ∧ content m = Str s.

(** * Properties *)

(** ** The reducer *)

Lemma u_string_length n : String.length (u_string n) = n.
Proof. induction n as [|n IH]; simpl; [done | by rewrite IH]. Qed.

Lemma uuid4_fresh used : uuid4 used ∉ used.
Proof.
  intros Hin.
  assert (String.length (uuid4 used) ≤ max_list (String.length <$> used))%nat as Hle.
  { apply max_list_elem_of_le, list_elem_of_fmap. eauto. }
  unfold uuid4 in Hle. rewrite u_string_length in Hle. lia.
Qed.

Lemma msg_id_set_id i m : msg_id (set_id i m) = Some i.
Proof. by destruct m. Qed.

Lemma assign_ids_id used ms : has_ids ms → assign_ids used ms = (ms, used).
Proof.
  induction 1 as [|m ms [i Hi] _ IH]; simpl; [done|].
  by rewrite Hi, IH.
Qed.

Lemma assign_ids_has_ids used ms : has_ids (assign_ids used ms).1.
Proof.
  revert used. induction ms as [|m ms IH]; intros used; simpl; [constructor|].
  destruct (msg_id m) as [i|] eqn:Hi.
  - specialize (IH used). destruct (assign_ids used ms) as [r u]. simpl in *.
    constructor; [by rewrite Hi | done].
  - specialize (IH (uuid4 used :: used)).
    destruct (assign_ids (uuid4 used :: used) ms) as [r u]. simpl in *.
    constructor; [by rewrite msg_id_set_id | done].
Qed.

Lemma assign_ids_length used ms : length (assign_ids used ms).1 = length ms.
Proof.
  revert used. induction ms as [|m ms IH]; intros used; simpl; [done|].
  destruct (msg_id m).
  - specialize (IH used). destruct (assign_ids used ms). simpl in *. by rewrite IH.
  - specialize (IH (uuid4 used :: used)).
    destruct (assign_ids (uuid4 used :: used) ms). simpl in *. by rewrite IH.
Qed.

(** Ids given by [assign_ids] stay clear of every id in use. *)
Lemma assign_ids_fresh (L used : list string) ms :
  L ⊆ used → Forall (fresh_for L) ms →
  Forall (λ m, ∃ i, msg_id m = Some i ∧ i ∉ L) (assign_ids used ms).1.
Proof.
  intros HL Hms. revert used HL.
  induction Hms as [|m ms Hm _ IH]; intros used HL; simpl; [constructor|].
  destruct (msg_id m) as [i|] eqn:Hi.
  - specialize (IH used HL). destruct (assign_ids used ms) as [r u]. simpl in *.
    constructor; [|done]. exists i. split; [done|]. by apply Hm.
  - assert (L ⊆ uuid4 used :: used) as HL' by set_solver.
    specialize (IH _ HL').
    destruct (assign_ids (uuid4 used :: used) ms) as [r u]. simpl in *.
    constructor; [|done]. exists (uuid4 used). split; [apply msg_id_set_id|].
    intros Hin. apply (uuid4_fresh used). by apply HL.
Qed.

(** [assign_ids] changes ids only. *)
Lemma assign_ids_same used ms :
  Forall2 (λ m m', role m' = role m ∧ content m' = content m
                   ∧ get_tool_calls m' = get_tool_calls m ∧ call_id m' = call_id m
                   ∧ (is_Some (msg_id m) → m' = m))
    ms (assign_ids used ms).1.
Proof.
  revert used. induction ms as [|m ms IH]; intros used; simpl; [constructor|].
  destruct (msg_id m) as [i|] eqn:Hi.
  - specialize (IH used). destruct (assign_ids used ms). simpl in *.
    constructor; [naive_solver | done].
  - specialize (IH (uuid4 used :: used)).
    destruct (assign_ids (uuid4 used :: used) ms). simpl in *.
    constructor; [|done]. destruct m; simpl in *; subst; split_and!; try done.
    all: by intros [? ?].
Qed.

Lemma index_by_id_keys i ms d k v :
  index_by_id i ms d !! k = Some v → d !! k = Some v ∨ k ∈ msg_id <$> ms.
Proof.
  revert i d. induction ms as [|m ms IH]; intros i d; simpl; [by left|].
  intros Hk. apply IH in Hk as [Hk | Hk]; [|right; apply elem_of_cons; by right].
  destruct (decide (msg_id m = k)) as [->|Hne].
  - right. apply elem_of_cons. by left.
  - rewrite lookup_insert_ne in Hk by done. by left.
Qed.

(** Merging messages whose ids are not stored leaves the stored ones as they
    are. *)
Lemma merge_keeps_prefix (left : list BaseMessage) right merged d :
  Forall (λ m, msg_id m ∉ msg_id <$> left) right →
  (∃ new, merged = left ++ new) →
  (∀ k i, d !! k = Some i → k ∈ msg_id <$> left ∨ (length left ≤ i)%nat) →
  ∃ new, (foldl merge_one (merged, d) right).1 = left ++ new.
Proof.
  intros Hr. revert merged d.
  induction Hr as [|m right Hm _ IH]; intros merged d [new ->] Hd; simpl; [eauto|].
  destruct (d !! msg_id m) as [i|] eqn:Hi.
  - apply IH; [|done].
    destruct (Hd _ _ Hi) as [?|Hle]; [done|].
    exists (<[i - length left := m]> new). by apply insert_app_r_alt.
  - apply IH.
    + exists (new ++ [m]). by rewrite (assoc_L (++)).
    + intros k i. destruct (decide (msg_id m = k)) as [<-|Hk].
      * rewrite lookup_insert_eq. intros [= <-]. right. rewrite length_app. lia.
      * rewrite lookup_insert_ne by done. apply Hd.
Qed.

Lemma fresh_not_stored (left : list BaseMessage) m :
  (∃ i, msg_id m = Some i ∧ i ∉ ids_of left) → msg_id m ∉ msg_id <$> left.
Proof.
  intros (i & Hi & Hni) Hin. apply Hni.
  apply list_elem_of_fmap in Hin as (x & Hx & Hxl).
  apply list_elem_of_omap. exists x. by rewrite <- Hx, Hi.
Qed.

Lemma index_by_id_stored (left : list BaseMessage) k i :
  index_by_id 0 left ∅ !! k = Some i → k ∈ msg_id <$> left.
Proof.
  intros Hk. apply index_by_id_keys in Hk as [Hk|Hk]; [|done].
  by rewrite lookup_empty in Hk.
Qed.

(** What the reducer returns when every incoming id is new: the stored list,
    then new messages. *)
Lemma add_messages_prefix left right :
  has_ids left → Forall (fresh_for (ids_of left)) right →
  ∃ new, add_messages left right = left ++ new.
Proof.
  intros Hleft Hright. unfold add_messages.
  rewrite (assign_ids_id _ _ Hleft).
  pose proof (assign_ids_fresh (ids_of left) (ids_of left ++ ids_of right) right) as Hf.
  destruct (assign_ids (ids_of left ++ ids_of right) right) as [right' u]. simpl in Hf.
  apply merge_keeps_prefix.
  - eapply Forall_impl; [apply Hf; [|done]|].
    { intros x Hx. apply elem_of_app. by left. }
    intros m Hm. by apply fresh_not_stored.
  - exists []. by rewrite app_nil_r.
  - intros k i Hk. left. by eapply index_by_id_stored.
Qed.

(** One incoming message with a new id, or with none, goes to the end; the
    reducer touches nothing but a missing id. *)
Lemma add_messages_one left m :
  has_ids left → fresh_for (ids_of left) m →
  ∃ m', add_messages left [m] = left ++ [m']
        ∧ role m' = role m ∧ content m' = content m
        ∧ get_tool_calls m' = get_tool_calls m ∧ call_id m' = call_id m
        ∧ is_Some (msg_id m') ∧ (is_Some (msg_id m) → m' = m).
Proof.
  intros Hleft Hm. unfold add_messages.
  rewrite (assign_ids_id _ _ Hleft).
  pose proof (assign_ids_fresh (ids_of left) (ids_of left ++ ids_of [m]) [m]) as Hf.
  pose proof (assign_ids_same (ids_of left ++ ids_of [m]) [m]) as Hs.
  destruct (assign_ids (ids_of left ++ ids_of [m]) [m]) as [right' u]. simpl in Hf, Hs.
  apply Forall2_cons_inv_l in Hs as (m' & r & Hsame & Hnil & ->).
  apply Forall2_nil_inv_l in Hnil as ->.
  assert (ids_of left ⊆ ids_of left ++ ids_of [m]) as Hsub.
  { intros x Hx. apply elem_of_app. by left. }
  specialize (Hf Hsub (Forall_cons_2 _ _ _ Hm (Forall_nil_2 _))).
  rewrite Forall_singleton in Hf.
  exists m'. simpl.
  destruct (index_by_id 0 left ∅ !! msg_id m') as [i|] eqn:Hi.
  - apply index_by_id_stored in Hi. by apply fresh_not_stored in Hf.
  - simpl. destruct Hf as (i & Hi' & _).
    destruct Hsame as (Hrole & Hcontent & Hcalls & Hcall & Hkeep).
    rewrite Hi'. split_and!; done.
Qed.

Lemma merge_has_ids right merged d :
  has_ids right → has_ids merged → has_ids (foldl merge_one (merged, d) right).1.
Proof.
  intros Hr. revert merged d.
  induction Hr as [|m right Hm _ IH]; intros merged d Hmerged; simpl; [done|].
  destruct (d !! msg_id m) as [i|].
  - apply IH. by apply Forall_insert.
  - apply IH. apply Forall_app. split; [done | by constructor].
Qed.

(** Whatever goes in, every message the reducer returns has an id. *)
Lemma add_messages_has_ids left right : has_ids (add_messages left right).
Proof.
  unfold add_messages.
  pose proof (assign_ids_has_ids (ids_of left ++ ids_of right) left) as Hl.
  destruct (assign_ids (ids_of left ++ ids_of right) left) as [left' used].
  pose proof (assign_ids_has_ids used right) as Hr.
  destruct (assign_ids used right) as [right' u].
  by apply merge_has_ids.
Qed.

(** ** The monad *)

Lemma bind_ok {S A B} (c : St S A) (k : A → St S B) s a s' :
  c s = (Ok a, s') → (c ≫= k) s = k a s'.
Proof. intros Hc. unfold mbind, St_bind. by rewrite Hc. Qed.

Lemma bind_raise {S A B} (c : St S A) (k : A → St S B) s e s' :
  c s = (Raise e, s') → (c ≫= k) s = (Raise e, s').
Proof. intros Hc. unfold mbind, St_bind. by rewrite Hc. Qed.

(** ** Console bookkeeping *)

Lemma emit_logged ev w : emit ev w = (Ok (), logged [ev] w).
Proof. reflexivity. Qed.

Lemma logged_logged evs1 evs2 w : logged evs2 (logged evs1 w) = logged (evs1 ++ evs2) w.
Proof. unfold logged, with_console. simpl. by rewrite (assoc_L (++)). Qed.


Lemma with_console_twice evs1 evs2 w :
  with_console evs2 (with_console evs1 w) = with_console evs2 w.
Proof. reflexivity. Qed.

(** Brings the console of the goal to the form [console w ++ evs]. *)
Ltac st_log :=
  unfold logged; simpl;
  rewrite ?with_console_twice, <- ?(assoc_L (++)); simpl.

(** ** The router *)

(** C1, as the code has it.  On a conversation that ends with the message
    [m], the router answers ["tool_use"] exactly when [m] is an assistant
    message with at least one tool call and ["user_input"] exactly when [m]
    is an assistant message whose tool calls are empty.  It never reads the
    role: on a message of another class the lookup of [tool_calls] fails,
    and no route is returned. *)
Theorem check_tool_use_routes (self : Agent) (ms : list BaseMessage) (m : BaseMessage) :
  let state := {| messages := ms ++ [m] |} in
  (check_tool_use self state = Ok "tool_use"
     ↔ role m = assistant ∧ ∃ tc tcs, get_tool_calls m = Ok (tc :: tcs))
  ∧ (check_tool_use self state = Ok "user_input"
     ↔ role m = assistant ∧ get_tool_calls m = Ok [])
  ∧ (check_tool_use self state = Raise (AttributeError (class_name m) "tool_calls")
     ↔ role m ≠ assistant).
Proof.
  unfold check_tool_use, index_last. simpl. rewrite last_snoc. simpl.
  destruct m as [c [|tc tcs] i | c i | c i | c t i]; simpl.
  all: split_and!; split; try done.
  all: try (intros [? ?]; done).
  all: try (intros [_ (? & ? & ?)]; done).
  all: try (intros _; split; [done | eauto]).
Qed.

(** C1, as the spec has it, fails on a user message: the router does not
    answer ["user_input"], it raises [AttributeError]. *)
Lemma check_tool_use_user_message :
  let m := HumanMessage (Str "hello") (Some "uu") in
  let state := {| messages := [greeting; m] |} in
  role m = user
  ∧ check_tool_use sample_agent state
    = Raise (Exn "AttributeError" "'HumanMessage' object has no attribute 'tool_calls'")
  ∧ check_tool_use sample_agent state ≠ Ok "user_input".
Proof. split_and!; [reflexivity | reflexivity | discriminate]. Qed.

(** ** Tool execution *)

Create HintDb st discriminated.
#[local] Hint Unfold mbind mret St_bind St_ret result_bind result_ret
  emit modify lift raise get getattr : st.

(** Runs the monad's plumbing of the goal. *)
Ltac st_run := autounfold with st; simpl.
Tactic Notation "st_run" "in" hyp(H) := autounfold with st in H; simpl in H.

Section tool_use_facts.
Context `{ToolNodeAPI}.

(** A turn of the loop on a call whose tool is held, up to [attempt]. *)
Lemma tool_use_loop_held tools_by_name state tc rest response t node w :
  tools_by_name !! tc_name tc = Some t →
  ToolNode [Some t] = Ok node →
  tool_use_loop tools_by_name state (tc :: rest) response w
  = match attempt node state tc response
            (logged [EvInvoking (tc_name tc) (tc_args tc); EvFound (Some (name t))] w) with
    | (Ok response', w') => tool_use_loop tools_by_name state rest response' w'
    | (Raise e, w') => (Raise e, w')
    end.
Proof.
  intros Ht Hnode. simpl. st_run. rewrite Ht. simpl. rewrite Hnode.
  by st_log.
Qed.

(** A turn of the loop on a call whose tool is missing: the constructor of
    [ToolNode] is outside the [try], so what it raises leaves the loop. *)
Lemma tool_use_loop_missing tools_by_name state tc rest response e w :
  tools_by_name !! tc_name tc = None →
  ToolNode [None] = Raise e →
  tool_use_loop tools_by_name state (tc :: rest) response w
  = (Raise e, logged [EvInvoking (tc_name tc) (tc_args tc); EvFound None] w).
Proof.
  intros Ht Hnode. simpl. st_run. rewrite Ht. simpl. rewrite Hnode.
  by st_log.
Qed.

(** The [except] branch. *)
Lemma attempt_raise node state tc response e w :
  ainvoke node state = Raise e → is_Exception e = true →
  attempt node state tc response w
  = (Ok (response ++ [tool_error tc e]),
     logged [EvToolError (tc_name tc) (exn_str e)] w).
Proof.
  intros Hinv He. unfold attempt, handler. rewrite Hinv, He. reflexivity.
Qed.

End tool_use_facts.

(** The [except] branch in a turn of the loop: when [ainvoke] itself raises
    an exception [e] on a held tool, the turn appends one tool message that
    carries the id of the call and whose text holds the name of the tool (and
    [str(e)]), raises nothing, and the loop goes on with the calls that
    remain.  Whether a failing tool makes [ainvoke] raise is the library's
    affair. *)
Theorem tool_failure_is_isolated `{ToolNodeAPI}
  (tools_by_name : gmap string BaseTool) (state : AgentState) (tc : ToolCall)
  (rest : list ToolCall) (response : list BaseMessage) (t : BaseTool)
  (node : tool_node) (e : exn) (w : World) :
  tools_by_name !! tc_name tc = Some t →
  ToolNode [Some t] = Ok node →
  ainvoke node state = Raise e →
  is_Exception e = true →
  let failure := tool_error tc e in
  role failure = tool
  ∧ call_id failure = Some (tc_id tc)
  ∧ (∃ before after, content failure = Str (before +:+ tc_name tc +:+ after)
                     ∧ after = "' execution: " +:+ exn_str e)
  ∧ tool_use_loop tools_by_name state (tc :: rest) response w
    = tool_use_loop tools_by_name state rest (response ++ [failure])
        (logged [EvInvoking (tc_name tc) (tc_args tc); EvFound (Some (name t));
                 EvToolError (tc_name tc) (exn_str e)] w).
Proof.
  intros Ht Hnode Hinv He failure. subst failure.
  split_and!; [done | done | by eexists _, _ |].
  rewrite (tool_use_loop_held _ _ _ _ _ _ _ _ Ht Hnode).
  rewrite (attempt_raise _ _ _ _ _ _ Hinv He).
  by rewrite logged_logged.
Qed.

Lemma tool_failure_is_isolated_witness :
  let tc := call "broken_tool" "call_2" in
  let state := asks [call "run_unit_tests" "call_1"; tc] in
  let held := by_name [passing_tool; broken_tool] in
  let response := [ToolMessage (Str "2 passed") "call_1" None] in
  let failure :=
    ToolMessage (Str "ERROR: Exception during tool 'broken_tool' execution: boom")
      "call_2" None in
  held !! "broken_tool" = Some broken_tool
  ∧ ToolNode (ToolNodeAPI := langgraph.api false) [Some broken_tool] = Ok [broken_tool]
  ∧ ainvoke (ToolNodeAPI := langgraph.api false) [broken_tool] state
    = Raise (ValueError "boom")
  ∧ is_Exception (ValueError "boom") = true
  ∧ tool_use_loop (H := langgraph.api false) held state [tc] response sample_world
    = (Ok (response ++ [failure]),
       logged [EvInvoking "broken_tool" [("test_path", "tests")];
               EvFound (Some "broken_tool"); EvToolError "broken_tool" "boom"]
         sample_world).
Proof.
  intros tc state held response failure.
  assert (held !! tc_name tc = Some broken_tool) as Ht by (vm_compute; reflexivity).
  assert (ToolNode (ToolNodeAPI := langgraph.api false) [Some broken_tool]
          = Ok [broken_tool]) as Hnode by reflexivity.
  assert (ainvoke (ToolNodeAPI := langgraph.api false) [broken_tool] state
          = Raise (ValueError "boom")) as Hinv by (vm_compute; reflexivity).
  assert (is_Exception (ValueError "boom") = true) as He by (vm_compute; reflexivity).
  split_and!; [exact Ht | exact Hnode | exact Hinv | exact He |].
  exact (proj2 (proj2 (proj2
    (tool_failure_is_isolated (H := langgraph.api false)
       held state tc [] response broken_tool [broken_tool] (ValueError "boom")
       sample_world Ht Hnode Hinv He)))).
Defined.

(** C2 at work on the library's [ToolNode], whatever its error handling is
    set to: a call to a tool that the agent does not hold makes [tool_use]
    raise, and the run of the graph ends with the same exception.  No tool
    message answers the call. *)
Theorem tool_use_missing_tool (handle_tool_errors : bool) (w : World) (limit : nat) :
  let state := asks [call "list_files" "call_1"] in
  let e := Exn "AttributeError" "'function' object has no attribute 'name'" in
  (tool_use (H := langgraph.api handle_tool_errors) sample_agent state w).1 = Raise e
  ∧ (steps (H := langgraph.api handle_tool_errors) sample_agent sample_graph "1"
       (S limit) "tool_use" state w).1 = Raise e.
Proof. split; vm_compute; reflexivity. Qed.

(** C3 at work on the library's [ToolNode]: two calls in one assistant
    message, to the same held tool.  Each turn of the loop hands the whole
    state to [ainvoke], which answers every call of the last message, and
    keeps the first answer: both tool messages carry the id of the first
    call, and the second call is never answered. *)
Theorem tool_use_two_calls (handle_tool_errors : bool) (w : World) :
  let state := asks [call "run_unit_tests" "call_1"; call "run_unit_tests" "call_2"] in
  (tool_use (H := langgraph.api handle_tool_errors) sample_agent state w).1
  = Ok {| messages := [ ToolMessage (Str "2 passed") "call_1" None;
                        ToolMessage (Str "2 passed") "call_1" None ] |}.
Proof. vm_compute. reflexivity. Qed.

(** C4 at work on the library's [ToolNode] with its error handling on, as
    [ToolNode([tool])] has it in the releases where that is the default.  A
    tool that raises does not make [ainvoke] raise: the node answers the
    failure itself, and the [except] branch of [tool_use] is not reached.
    For one call to the failing tool, the one tool message is the node's own,
    under the id of the call, and its text does not hold the name of the
    tool.  For a call to a passing tool followed by a call to the failing
    one, the second turn keeps the node's answer to the first call: no
    message carries the id of the failing call. *)
Theorem tool_failure_answered_by_tool_node (w : World) :
  let told := "Error: ValueError('boom')" +:+ nl +:+ " Please fix your mistakes." in
  let unknown := "Error: run_unit_tests is not a valid tool, try one of [broken_tool]." in
  let single := tool_use (H := langgraph.api true) sample_agent
                  (asks [call "broken_tool" "call_1"]) w in
  let pair := tool_use (H := langgraph.api true) sample_agent
                (asks [call "run_unit_tests" "call_1"; call "broken_tool" "call_2"]) w in
  single.1 = Ok {| messages := [ToolMessage (Str told) "call_1" None] |}
  ∧ String.index 0 "broken_tool" told = None
  ∧ console single.2
    = console w ++ [ EvInvoking "broken_tool" [("test_path", "tests")];
                     EvFound (Some "broken_tool");
                     EvToolResultRaw [ToolMessage (Str told) "call_1" None];
                     EvToolResult (nl +:+ told +:+ nl) ]
  ∧ pair.1 = Ok {| messages := [ ToolMessage (Str "2 passed") "call_1" None;
                                 ToolMessage (Str unknown) "call_1" None ] |}.
Proof.
  intros told unknown single pair.
  split_and!; try (vm_compute; reflexivity).
  assert (console single.2
          = (((console w ++ [EvInvoking "broken_tool" [("test_path", "tests")]])
              ++ [EvFound (Some "broken_tool")])
             ++ [EvToolResultRaw [ToolMessage (Str told) "call_1" None]])
            ++ [EvToolResult (nl +:+ told +:+ nl)]) as ->
    by (vm_compute; reflexivity).
  by rewrite <- !(assoc_L (++)).
Qed.

(** ** The model-response step *)

Lemma logged_nil w : logged [] w = w.
Proof. destruct w. unfold logged, with_console. simpl. by rewrite app_nil_r. Qed.

Lemma prompts_app evs1 evs2 : prompts (evs1 ++ evs2) = prompts evs1 ++ prompts evs2.
Proof. apply omap_app. Qed.

Lemma render_block_logged item w :
  ∃ evs, render_block item w = (Ok (), logged evs w) ∧ prompts evs = [].
Proof.
  destruct item as [text cc | tool args i | ty]; simpl.
  - case_bool_decide.
    + exists []. by rewrite logged_nil.
    + by eexists [_].
  - by eexists [_].
  - exists []. by rewrite logged_nil.
Qed.

(** Showing a response sends nothing to the provider and cannot fail. *)
Lemma render_logged c w :
  ∃ evs, render c w = (Ok (), logged evs w) ∧ prompts evs = [].
Proof.
  destruct c as [s | items]; simpl; [by eexists [_]|].
  revert w. induction items as [|item items IH]; intros w; simpl.
  - exists []. by rewrite logged_nil.
  - destruct (render_block_logged item w) as (evs1 & Heq1 & Hp1).
    rewrite (bind_ok _ _ _ _ _ Heq1).
    destruct (IH (logged evs1 w)) as (evs2 & Heq2 & Hp2).
    rewrite Heq2. exists (evs1 ++ evs2).
    by rewrite logged_logged, prompts_app, Hp1, Hp2.
Qed.

(** The prompt of a model call on a state: the system preamble, the working
    directory, then the conversation. *)
Lemma model_response_run self state w m :
  model_with_tools self = Some m →
  let prompt :=
    SystemMessage (Blocks [TextBlock (Some system_text) (Some "ephemeral")]) None
    :: HumanMessage (Str ("Working directory: " +:+ os_getcwd w)) None
    :: messages state in
  ∃ evs, prompts evs = []
    ∧ model_response self state w
      = match anthropic w (name <$> m.2) prompt with
        | Ok c => (Ok {| messages := [AIMessage (c_content c) (c_tool_calls c) (c_id c)] |},
                   logged (EvInvokeModel (name <$> m.2) prompt :: evs) w)
        | Raise e => (Raise e, logged (EvInvokeModel (name <$> m.2) prompt :: evs) w)
        end.
Proof.
  intros Hm prompt. unfold model_response, invoke_model, getcwd.
  st_run. rewrite Hm. simpl. fold prompt.
  destruct (anthropic w (name <$> m.2) prompt) as [c|e]; simpl.
  - destruct (render_logged (c_content c) (logged [EvInvokeModel (name <$> m.2) prompt] w))
      as (evs & Heq & Hp).
    exists evs. split; [done|].
    change (with_console (console w ++ [EvInvokeModel (name <$> m.2) prompt]) w)
      with (logged [EvInvokeModel (name <$> m.2) prompt] w).
    by rewrite Heq, logged_logged.
  - by exists [].
Qed.

(** ** The user-input step *)

(** C10.  Whatever line the terminal gives, the empty one too, the step
    returns one [HumanMessage] whose content is the line as it is, and the
    reducer puts that message, under a new id, at the end of the
    conversation. *)
Theorem user_input_appends (self : Agent) (state : AgentState) (w : World)
  (line : string) (rest : list string) :
  stdin w = line :: rest →
  has_ids (messages state) →
  ∃ i,
    user_input self state w
    = (Ok {| messages := [HumanMessage (Str line) None] |},
       logged [EvUserInput; EvInput line] (with_stdin rest w))
    ∧ add_messages (messages state) [HumanMessage (Str line) None]
      = messages state ++ [HumanMessage (Str line) (Some i)]
    ∧ role (HumanMessage (Str line) (Some i)) = user.
Proof.
  intros Hin Hids.
  destruct (add_messages_one (messages state) (HumanMessage (Str line) None) Hids)
    as (stored & Hadd & Hrole & Hcontent & _ & _ & [i Hi] & _); [by intros i|].
  exists i. split_and!; [| |done].
  - unfold user_input, console_input. st_run. rewrite Hin.
    unfold logged, with_console, with_stdin. simpl. by rewrite <- (assoc_L (++)).
  - rewrite Hadd. destruct stored; simpl in *; try done. by subst.
Qed.

Lemma user_input_appends_witness :
  ∃ i,
    user_input sample_agent
      {| messages := [AIMessage (Str "What can I do for you?") [] (Some "u")] |}
      sample_world
    = (Ok {| messages := [HumanMessage (Str "") None] |},
       logged [EvUserInput; EvInput ""] (with_stdin ["hello"] sample_world))
    ∧ add_messages [AIMessage (Str "What can I do for you?") [] (Some "u")]
        [HumanMessage (Str "") None]
      = [AIMessage (Str "What can I do for you?") [] (Some "u")]
        ++ [HumanMessage (Str "") (Some i)]
    ∧ role (HumanMessage (Str "") (Some i)) = user.
Proof.
  refine (user_input_appends sample_agent
            {| messages := [AIMessage (Str "What can I do for you?") [] (Some "u")] |}
            sample_world "" ["hello"] _ _).
  - reflexivity.
  - repeat constructor; simpl; eauto.
Defined.

(** ** Every step appends *)

Section appends.
Context `{ToolNodeAPI}.
Variable P : BaseMessage → Prop.
Variable state : AgentState.
Hypothesis P_answers : ∀ node msgs, ainvoke node state = Ok msgs → Forall P msgs.
Hypothesis P_errors : ∀ tc e, P (tool_error tc e).

Lemma handler_Forall tc response e w r w' :
  Forall P response → handler tc response e w = (Ok r, w') → Forall P r.
Proof.
  intros Hresp. unfold handler. destruct (is_Exception e); st_run; [|done].
  intros [= <- _]. apply Forall_app. split; [done|]. by constructor.
Qed.

Lemma attempt_Forall node tc response w r w' :
  Forall P response → attempt node state tc response w = (Ok r, w') → Forall P r.
Proof.
  intros Hresp. unfold attempt.
  destruct (ainvoke node state) as [msgs|e] eqn:Hinv; [|by apply handler_Forall].
  apply P_answers in Hinv. st_run.
  destruct msgs as [|m msgs]; simpl; [by apply handler_Forall|].
  apply Forall_cons in Hinv as [Hm _].
  assert (Forall P (response ++ [m])) as Hresp'.
  { apply Forall_app. split; [done | by constructor]. }
  destruct (framed (content m)); [|by apply handler_Forall].
  by intros [= <- _].
Qed.

Lemma tool_use_loop_Forall tools_by_name tcs response w r w' :
  Forall P response →
  tool_use_loop tools_by_name state tcs response w = (Ok r, w') → Forall P r.
Proof.
  revert response w. induction tcs as [|tc tcs IH]; intros response w Hresp; simpl.
  - by intros [= <- _].
  - rewrite (bind_ok _ _ _ _ _ (emit_logged _ _)).
    rewrite (bind_ok _ _ _ _ _ (emit_logged _ _)).
    destruct (ToolNode [tools_by_name !! tc_name tc]) as [node|e] eqn:Hnode.
    + rewrite (bind_ok (lift (Ok node)) _ _ node _ eq_refl).
      destruct (attempt node state tc response
                  (logged [EvFound (name <$> tools_by_name !! tc_name tc)]
                     (logged [EvInvoking (tc_name tc) (tc_args tc)] w)))
        as [[r1|e] w1] eqn:Hatt.
      * rewrite (bind_ok _ _ _ _ _ Hatt). apply IH. by eapply attempt_Forall.
      * by rewrite (bind_raise _ _ _ _ _ Hatt).
    + by rewrite (bind_raise (lift (Raise e)) _ _ e _ eq_refl).
Qed.

End appends.

Lemma no_id_fresh used m : msg_id m = None → fresh_for used m.
Proof. intros Hm i. by rewrite Hm. Qed.


(** The provider of the sample world keeps clear of the ids of the prompt. *)
Lemma plain_reply_ids_new : provider_ids_new sample_world.
Proof. intros tools prompt c [= <-] i [= <-]. apply uuid4_fresh. Qed.

(** The tool messages of the library's [ToolNode] come without an id. *)
Lemma langgraph_ids_new h : tool_node_ids_new (H := langgraph.api h).
Proof.
  intros node state msgs. simpl. unfold langgraph.answer_all.
  destruct (last (messages state)) as [[c tcs i| | |]|]; try done.
  revert msgs. induction tcs as [|tc tcs IH]; intros msgs; simpl.
  - intros [= <-]. constructor.
  - unfold mbind, result_bind.
    destruct (langgraph.run_one h node tc) as [m|] eqn:Hone; [|done].
    destruct (mapM (langgraph.run_one h node) tcs) as [ms|]; [|done].
    intros [= <-]. constructor; [|by apply IH].
    apply no_id_fresh. unfold langgraph.run_one in Hone.
    destruct (by_name node !! tc_name tc) as [t|]; [|by injection Hone as <-].
    destruct (invoke t (tc_args tc)); [by injection Hone as <-|].
    destruct (h && is_Exception e); [by injection Hone as <-|done].
Qed.



(** ** Construction and initialisation *)

Lemma getenv_eq key w : getenv key w = (Ok (os_environ w !! key), w).
Proof. reflexivity. Qed.

Lemma load_dotenv_fold_other (k : string) (entries : list (string * string))
  (environ env : gmap string string) :
  k ∉ entries.*1 →
  foldl (λ env kv, match environ !! kv.1 with
                   | Some _ => env
                   | None => <[kv.1 := kv.2]> env
                   end) env entries !! k = env !! k.
Proof.
  revert env. induction entries as [|[k' v] entries IH]; intros env Hk; [done|].
  rewrite fmap_cons, not_elem_of_cons in Hk. destruct Hk as [Hne Hk].
  simpl in *. rewrite IH by done.
  destruct (environ !! k'); [done|]. by rewrite lookup_insert_ne.
Qed.

Lemma assoc_None (k : string) (entries : list (string * string)) :
  assoc k entries = None → k ∉ entries.*1.
Proof.
  induction entries as [|[k' v] entries IH]; simpl; [intros _; apply not_elem_of_nil|].
  destruct (decide (k = k')) as [->|Hne]; [done|].
  intros Hentries. apply not_elem_of_cons. split; [done|by apply IH].
Qed.

Lemma load_dotenv_fold_absent (k : string) (entries : list (string * string))
  (environ : gmap string string) :
  environ !! k = None → assoc k entries = None →
  dotenv_merge environ entries !! k = None.
Proof.
  intros Henv Hentries. unfold dotenv_merge.
  rewrite load_dotenv_fold_other; [done|by apply assoc_None].
Qed.

(** C7.  When neither the environment nor the [.env] file holds
    [ANTHROPIC_API_KEY], [Agent()] raises [RuntimeError], and so does
    [async_main], which ends there: nothing has reached the console (no tool
    was loaded, no model was asked, no input was read), no conversation was
    saved, and the only change to the world is what [load_dotenv] did. *)
Theorem missing_credential_is_fatal `{ToolNodeAPI} (w : World) :
  os_environ w !! "ANTHROPIC_API_KEY" = None →
  assoc "ANTHROPIC_API_KEY" (dotenv_file w) = None →
  let w' := (load_dotenv w).2 in
  __init__ w = (Raise (RuntimeError missing_key), w')
  ∧ async_main w = (Raise (RuntimeError missing_key), w')
  ∧ console w' = console w
  ∧ checkpoints w' = checkpoints w
  ∧ stdin w' = stdin w.
Proof.
  intros Henv Hfile w'.
  assert (__init__ w = (Raise (RuntimeError missing_key), w')) as Hinit.
  { unfold __init__.
    rewrite (bind_ok load_dotenv _ w () w' eq_refl).
    rewrite (bind_ok _ _ _ _ _ (getenv_eq _ _)).
    subst w'. simpl.
    by rewrite (load_dotenv_fold_absent _ _ _ Henv Hfile). }
  split_and!; try done.
  unfold async_main. by rewrite (bind_raise _ _ _ _ _ Hinit).
Qed.

Lemma missing_credential_is_fatal_witness :
  __init__ bare_world = (Raise (RuntimeError missing_key), (load_dotenv bare_world).2)
  ∧ async_main (H := langgraph.api true) bare_world
    = (Raise (RuntimeError missing_key), (load_dotenv bare_world).2)
  ∧ console (load_dotenv bare_world).2 = console bare_world
  ∧ checkpoints (load_dotenv bare_world).2 = checkpoints bare_world
  ∧ stdin (load_dotenv bare_world).2 = stdin bare_world.
Proof.
  refine (missing_credential_is_fatal (H := langgraph.api true) bare_world _ _).
  - vm_compute. reflexivity.
  - reflexivity.
Defined.

(** C9.  On an agent whose [_initialized] flag is set, [initialize] returns
    at once: the agent is the same, and so is the world (nothing is printed,
    no tool is loaded, no model is bound, no checkpointer is opened, no graph
    is compiled). *)
Theorem initialize_idempotent (self : Agent) (w : World) :
  _initialized self = true →
  initialize (self, w) = (Ok (), (self, w)).
Proof. intros Hflag. unfold initialize. st_run. by rewrite Hflag. Qed.

Lemma initialize_idempotent_witness :
  initialize (sample_agent, sample_world) = (Ok (), (sample_agent, sample_world)).
Proof.
  refine (initialize_idempotent sample_agent sample_world _).
  vm_compute. reflexivity.
Defined.

Lemma print_tools_logged (ts : list BaseTool) (w : World) :
  foldr (λ tb k, emit (EvMcpTool (name tb));; k) (mret ()) ts w
  = (Ok (), logged ((λ tb, EvMcpTool (name tb)) <$> ts) w).
Proof.
  revert w. induction ts as [|tb ts IH]; intros w; simpl.
  - by rewrite logged_nil.
  - rewrite (bind_ok _ _ _ _ _ (emit_logged _ _)). by rewrite IH, logged_logged.
Qed.

Lemma get_mcp_tools_run (w : World) :
  get_mcp_tools w
  = match mcp_servers w (os_environ w !! "GITHUB_PERSONAL_ACCESS_TOKEN") with
    | Ok ts => (Ok ts, logged ((λ tb, EvMcpTool (name tb)) <$> ts) w)
    | Raise e => (Raise e, w)
    end.
Proof.
  unfold get_mcp_tools.
  rewrite (bind_ok _ _ _ _ _ (getenv_eq _ _)).
  rewrite (bind_ok get _ w w w eq_refl).
  destruct (mcp_servers w _) as [ts|e].
  - rewrite (bind_ok (lift (Ok ts)) _ w ts w eq_refl).
    by rewrite (bind_ok _ _ _ _ _ (print_tools_logged _ _)).
  - by rewrite (bind_raise (lift (Raise e)) _ w e w eq_refl).
Qed.

Lemma on_world_run {A} (c : St World A) (self : Agent) (w : World) :
  on_world c (self, w) = ((c w).1, (self, (c w).2)).
Proof. unfold on_world. simpl. by destruct (c w). Qed.

(** What a first, successful [initialize] leaves: the flag set, the graph of
    the constructor compiled. *)
Lemma initialize_first (self0 self : Agent) (w1 w2 : World) :
  _initialized self0 = false →
  initialize (self0, w1) = (Ok (), (self, w2)) →
  _initialized self = true
  ∧ workflow self = workflow self0
  ∧ ∃ g, agent self = Some g ∧ graph g = workflow self0.
Proof.
  intros Hflag. unfold initialize.
  rewrite (bind_ok get _ (self0, w1) (self0, w1) (self0, w1) eq_refl). simpl.
  rewrite Hflag.
  erewrite bind_ok by (rewrite on_world_run; reflexivity). simpl.
  erewrite bind_ok by (rewrite on_world_run; reflexivity). simpl.
  set (wa := with_console _ w1).
  destruct (mcp_servers wa (os_environ wa !! "GITHUB_PERSONAL_ACCESS_TOKEN"))
    as [ts|e] eqn:Hmcp.
  - erewrite bind_ok; cycle 1.
    { rewrite on_world_run, get_mcp_tools_run, Hmcp. reflexivity. }
    simpl. st_run. unfold on_self, on_world. st_run.
    destruct (sqlite_open _ _); [|done].
    intros [= <- _]. simpl. eauto.
  - erewrite bind_raise; [done|].
    rewrite on_world_run, get_mcp_tools_run, Hmcp. reflexivity.
Qed.

(** A second call after a successful one changes nothing. *)
Lemma initialize_again (self0 self : Agent) (w1 w2 w : World) :
  initialize (self0, w1) = (Ok (), (self, w2)) →
  initialize (self, w) = (Ok (), (self, w)).
Proof.
  intros Hinit.
  assert (_initialized self = true) as Hset.
  { destruct (_initialized self0) eqn:Hflag.
    - unfold initialize in Hinit. st_run in Hinit. rewrite Hflag in Hinit.
      by injection Hinit as <- _.
    - by destruct (initialize_first _ _ _ _ Hflag Hinit) as [? _]. }
  unfold initialize. st_run. by rewrite Hset.
Qed.

(** ** The first turn *)

Lemma extends_silent {A} (c : St World A) :
  (∀ w, console (c w).2 = console w) → extends c.
Proof. intros Hc w. exists []. by rewrite app_nil_r. Qed.

Lemma extends_emit ev : extends (emit ev).
Proof. intros w. by exists [ev]. Qed.

Lemma extends_bind {A B} (c : St World A) (k : A → St World B) :
  extends c → (∀ a, extends (k a)) → extends (c ≫= k).
Proof.
  intros Hc Hk w. destruct (Hc w) as [evs1 H1].
  destruct (c w) as [[a|e] w1] eqn:Hcw; simpl in H1.
  - rewrite (bind_ok _ _ _ _ _ Hcw). destruct (Hk a w1) as [evs2 H2].
    exists (evs1 ++ evs2). by rewrite H2, H1, (assoc_L (++)).
  - rewrite (bind_raise _ _ _ _ _ Hcw). by exists evs1.
Qed.

Lemma bind_assoc {S A B C} (c : St S A) (k1 : A → St S B) (k2 : B → St S C) s :
  ((c ≫= k1) ≫= k2) s = (c ≫= (λ a, k1 a ≫= k2)) s.
Proof. unfold mbind, St_bind. by destruct (c s) as [[a|e] s']. Qed.

Lemma extends_console_input : extends console_input.
Proof.
  intros w. unfold console_input.
  destruct (stdin w); [exists []; by rewrite app_nil_r | by eexists [_]].
Qed.

Lemma extends_user_input self state : extends (user_input self state).
Proof.
  unfold user_input. apply extends_bind; [apply extends_emit|intros _].
  apply extends_bind; [apply extends_console_input|intros line].
  by apply extends_silent.
Qed.

Lemma extends_model_response self state : extends (model_response self state).
Proof.
  intros w. destruct (model_with_tools self) as [m|] eqn:Hm.
  - destruct (model_response_run self state w m Hm) as (evs & _ & ->).
    destruct (anthropic w _ _); by eexists.
  - unfold model_response, getcwd. st_run. rewrite Hm. simpl.
    exists []. by rewrite app_nil_r.
Qed.

Section extends_tools.
Context `{ToolNodeAPI}.

Lemma extends_handler tc response e : extends (handler tc response e).
Proof.
  unfold handler. destruct (is_Exception e).
  - apply extends_bind; [apply extends_emit|intros _]. by apply extends_silent.
  - by apply extends_silent.
Qed.

Lemma extends_attempt node state tc response : extends (attempt node state tc response).
Proof.
  unfold attempt. destruct (ainvoke node state) as [msgs|e]; [|apply extends_handler].
  apply extends_bind; [apply extends_emit|intros _].
  destruct (index_first msgs) as [m|e]; [|apply extends_handler].
  destruct (framed (content m)) as [text|e]; [|apply extends_handler].
  apply extends_bind; [apply extends_emit|intros _]. by apply extends_silent.
Qed.

Lemma extends_tool_use_loop tools_by_name state tcs response :
  extends (tool_use_loop tools_by_name state tcs response).
Proof.
  revert response. induction tcs as [|tc tcs IH]; intros response; simpl.
  - by apply extends_silent.
  - apply extends_bind; [apply extends_emit|intros _].
    apply extends_bind; [apply extends_emit|intros _].
    apply extends_bind; [by apply extends_silent|intros node].
    apply extends_bind; [apply extends_attempt|intros r]. apply IH.
Qed.

Lemma extends_tool_use self state : extends (tool_use self state).
Proof.
  unfold tool_use.
  apply extends_bind; [destruct (tools self); by apply extends_silent|intros ts].
  apply extends_bind; [by apply extends_silent|intros m].
  apply extends_bind; [by apply extends_silent|intros tcs].
  apply extends_bind; [apply extends_tool_use_loop|intros r].
  by apply extends_silent.
Qed.

Lemma extends_run_node self f state : extends (run_node self f state).
Proof.
  destruct f; simpl;
    [apply extends_user_input | apply extends_model_response | apply extends_tool_use].
Qed.

(** What follows the node's function in a step of the graph. *)
Lemma extends_steps self g thread_id limit node state :
  extends (steps self g thread_id limit node state).
Proof.
  revert node state. induction limit as [|limit IH]; intros node state; simpl.
  - by apply extends_silent.
  - apply extends_bind; [by apply extends_silent|intros f].
    apply extends_bind; [apply extends_run_node|intros update].
    apply extends_bind; [by apply extends_silent|intros _].
    apply extends_bind; [by apply extends_silent|intros next].
    destruct next; [apply IH | by apply extends_silent].
Qed.

(** A run of the graph that enters at a node bound to [user_input] opens
    with the prompt for the user's input. *)
Lemma steps_open_with_user_input self g thread_id limit node state w :
  assoc node (nodes (graph g)) = Some self_user_input →
  ∃ evs, console (steps self g thread_id (S limit) node state w).2
         = console w ++ EvUserInput :: evs.
Proof.
  intros Hnode. simpl. rewrite Hnode.
  rewrite (bind_ok (lift (Ok self_user_input)) _ w self_user_input w eq_refl).
  unfold run_node, user_input. rewrite bind_assoc.
  rewrite (bind_ok _ _ _ _ _ (emit_logged _ _)).
  match goal with |- ∃ _, console (?c _).2 = _ => assert (extends c) as Hrest end.
  { apply extends_bind.
    - apply extends_bind; [apply extends_console_input|intros line].
      by apply extends_silent.
    - intros update.
      apply extends_bind; [by apply extends_silent|intros _].
      apply extends_bind; [by apply extends_silent|intros next].
      destruct next; [apply extends_steps | by apply extends_silent]. }
  destruct (Hrest (logged [EvUserInput] w)) as [evs Hevs].
  exists evs. rewrite Hevs. simpl. by rewrite <- (assoc_L (++)).
Qed.

End extends_tools.

(** The agent a successful [Agent()] builds. *)
Lemma init_built (w0 w1 : World) (self0 : Agent) :
  __init__ w0 = (Ok self0, w1) →
  _initialized self0 = false
  ∧ entry_point (workflow self0) = Some "user_input"
  ∧ assoc "user_input" (nodes (workflow self0)) = Some self_user_input.
Proof.
  unfold __init__.
  rewrite (bind_ok load_dotenv _ w0 () (load_dotenv w0).2 eq_refl).
  rewrite (bind_ok _ _ _ _ _ (getenv_eq _ _)).
  destruct (falsy_str _); [done|].
  by intros [= <- _].
Qed.

(** ** The library's [ToolNode] under the loop *)

(** With [handle_tool_errors] off, the failure of a tool called by the last
    assistant message makes [ainvoke] raise. *)
Lemma langgraph_failure_surfaces (held : list BaseTool) (state : AgentState)
  (c : Content) (tcs : list ToolCall) (i : option string) (tc : ToolCall)
  (t : BaseTool) (e : exn) :
  last (messages state) = Some (AIMessage c tcs i) →
  tc ∈ tcs →
  by_name held !! tc_name tc = Some t →
  invoke t (tc_args tc) = Raise e →
  ∃ e', ainvoke (ToolNodeAPI := langgraph.api false) held state = Raise e'.
Proof.
  intros Hlast Hin Ht He. simpl. unfold langgraph.answer_all. rewrite Hlast.
  clear Hlast. induction tcs as [|tc' tcs IH]; [by apply elem_of_nil in Hin|].
  simpl. unfold mbind, result_bind.
  apply elem_of_cons in Hin as [<-|Hin].
  - unfold langgraph.run_one. rewrite Ht, He. simpl. by eexists.
  - destruct (langgraph.run_one false held tc'); [|by eexists].
    destruct (IH Hin) as [e' ->]. by eexists.
Qed.

Section loop_returns.
Context `{ToolNodeAPI}.

(** The [try] statement returns, with at least one message more, whenever
    what the invocation may raise is an [Exception]. *)
Lemma attempt_returns node state tc response w :
  (∀ e, ainvoke node state = Raise e → is_Exception e = true) →
  ∃ r w', attempt node state tc response w = (Ok r, w')
          ∧ (length response < length r)%nat.
Proof.
  intros Hexc. unfold attempt, handler.
  destruct (ainvoke node state) as [msgs|e] eqn:Hinv.
  - st_run. destruct msgs as [|m msgs]; simpl.
    + eexists _, _. split; [done|]. rewrite length_app. simpl. lia.
    + destruct (content m); simpl.
      * eexists _, _. split; [done|]. rewrite length_app. simpl. lia.
      * eexists _, _. split; [done|]. rewrite !length_app. simpl. lia.
  - rewrite (Hexc e eq_refl). st_run.
    eexists _, _. split; [done|]. rewrite length_app. simpl. lia.
Qed.

(** On a batch whose tools are all held, the loop returns: one message at
    least is collected per call, whichever of the calls fail. *)
Lemma tool_use_loop_returns tools_by_name state tcs response w :
  Forall (λ tc, ∃ t node, tools_by_name !! tc_name tc = Some t
                          ∧ ToolNode [Some t] = Ok node
                          ∧ ∀ e, ainvoke node state = Raise e → is_Exception e = true)
         tcs →
  ∃ r w', tool_use_loop tools_by_name state tcs response w = (Ok r, w')
          ∧ (length response + length tcs ≤ length r)%nat.
Proof.
  intros Htcs. revert response w.
  induction Htcs as [|tc tcs (t & node & Ht & Hnode & Hexc) _ IH]; intros response w.
  - exists response, w. split; [done|]. simpl. lia.
  - rewrite (tool_use_loop_held _ _ _ _ _ _ _ _ Ht Hnode).
    destruct (attempt_returns node state tc response
                (logged [EvInvoking (tc_name tc) (tc_args tc); EvFound (Some (name t))] w)
                Hexc) as (r1 & w1 & -> & Hlen1).
    destruct (IH r1 w1) as (r & w' & -> & Hlen).
    exists r, w'. split; [done|]. simpl. lia.
Qed.

End loop_returns.

(** ** Runs of the sample world *)

(** The user sends an empty line, then ["hello"], then closes the input: the
    conversation saved under the thread holds the greeting and two rounds of
    one user message and one assistant message. *)
Example run_saves_conversation :
  let out := run (H := langgraph.api true) sample_agent sample_world in
  out.1 = Raise EOFError
  ∧ checkpoints out.2 !! "1"
    = Some [ AIMessage (Str "What can I do for you?") [] (Some "u");
             HumanMessage (Str "") (Some "uu");
             AIMessage (Str "Hi there!") [] (Some "uuu");
             HumanMessage (Str "hello") (Some "uuuu");
             AIMessage (Str "Hi there!") [] (Some "uuuuu") ].
Proof. split; vm_compute; reflexivity. Qed.

(** One call to a held tool: one tool message, under the id of the call. *)
Example tool_use_one_call :
  (tool_use (H := langgraph.api true) sample_agent
     (asks [call "run_unit_tests" "call_1"]) sample_world).1
  = Ok {| messages := [ToolMessage (Str "2 passed") "call_1" None] |}.
Proof. vm_compute. reflexivity. Qed.

(** Two calls to two held tools, the second of which fails.  When the
    library answers a failure itself, the second message is its answer to the
    first call again; when it raises, the message of the [except] branch
    answers the second call. *)
Example tool_use_second_call_fails :
  let state := asks [call "run_unit_tests" "call_1"; call "broken_tool" "call_2"] in
  (tool_use (H := langgraph.api true) sample_agent state sample_world).1
  = Ok {| messages :=
            [ ToolMessage (Str "2 passed") "call_1" None;
              ToolMessage
                (Str "Error: run_unit_tests is not a valid tool, try one of [broken_tool].")
                "call_1" None ] |}
  ∧ (tool_use (H := langgraph.api false) sample_agent state sample_world).1
    = Ok {| messages :=
              [ ToolMessage (Str "2 passed") "call_1" None;
                ToolMessage
                  (Str "ERROR: Exception during tool 'broken_tool' execution: boom")
                  "call_2" None ] |}.
Proof. split; vm_compute; reflexivity. Qed.

(** One call to a held tool whose result is a list of blocks: the result is
    appended, showing it fails on ["\n" + content], and the [except] branch
    appends an error message for the same call. *)
Example tool_use_list_content :
  (tool_use (H := langgraph.api true) (set_tools [listing_tool] sample_agent)
     (asks [call "list_files" "call_1"]) sample_world).1
  = Ok {| messages :=
            [ ToolMessage (Blocks [TextBlock (Some "a.txt") None; TextBlock (Some "b.txt") None])
                "call_1" None;
              tool_error (call "list_files" "call_1")
                (TypeError ("can only concatenate str (not " +:+ dq +:+ "list" +:+ dq
                            +:+ ") to str")) ] |}.
Proof. vm_compute. reflexivity. Qed.

(** ** The credential *)

Lemma load_dotenv_fold_held (k : string) (entries : list (string * string))
  (environ env : gmap string string) :
  is_Some (environ !! k) →
  foldl (λ env kv, match environ !! kv.1 with
                   | Some _ => env
                   | None => <[kv.1 := kv.2]> env
                   end) env entries !! k = env !! k.
Proof.
  intros Hk. revert env. induction entries as [|[k' v'] entries IH]; intros env; [done|].
  simpl. rewrite IH. destruct (environ !! k') eqn:Hk'; [done|].
  rewrite lookup_insert_ne; [done|]. intros ->. rewrite Hk' in Hk. by destruct Hk.
Qed.

Lemma load_dotenv_fold_keeps (k v : string) (entries : list (string * string))
  (environ : gmap string string) :
  environ !! k = Some v →
  dotenv_merge environ entries !! k = Some v.
Proof.
  intros Henv. unfold dotenv_merge. rewrite load_dotenv_fold_held; [done|by exists v].
Qed.

Lemma load_dotenv_fold_adds (k v : string) (entries : list (string * string))
  (environ : gmap string string) :
  environ !! k = None → NoDup entries.*1 → (k, v) ∈ entries →
  dotenv_merge environ entries !! k = Some v.
Proof.
  intros Henv. unfold dotenv_merge. generalize environ at 2.
  induction entries as [|[k' v'] entries IH]; intros env Hnodup Hin; simpl.
  - by apply elem_of_nil in Hin.
  - apply NoDup_cons in Hnodup as [Hk' Hnodup].
    apply elem_of_cons in Hin as [[= <- <-]|Hin].
    + rewrite Henv, load_dotenv_fold_other by done. apply lookup_insert_eq.
    + by apply IH.
Qed.

(** What [Agent()] returns once the lookup of the key gave a non-empty
    value. *)
Lemma init_with_key (w : World) (v : string) :
  os_environ (load_dotenv w).2 !! "ANTHROPIC_API_KEY" = Some v → v ≠ "" →
  ∃ self, __init__ w = (Ok self, (load_dotenv w).2)
          ∧ api_key (model self) = v
          ∧ model_name (model self) = "claude-3-7-sonnet-latest"
          ∧ max_tokens (model self) = 4096
          ∧ _initialized self = false
          ∧ tools self = None ∧ model_with_tools self = None
          ∧ _checkpointer_ctx self = None ∧ agent self = None.
Proof.
  intros Hkey Hv. unfold __init__.
  rewrite (bind_ok load_dotenv _ w () (load_dotenv w).2 eq_refl).
  rewrite (bind_ok _ _ _ _ _ (getenv_eq _ _)).
  rewrite Hkey. simpl. rewrite bool_decide_eq_false_2 by done.
  eexists. split; [reflexivity|]. by split_and!.
Qed.

(** X1.  A non-empty key in the environment is the one [Agent()] uses,
    whatever [.env] holds.  The constructor prints nothing and leaves the
    agent uninitialised: no tools, no bound model, no checkpointer, no compiled
    graph. *)
Theorem init_takes_environment_key (w : World) (v : string) :
  os_environ w !! "ANTHROPIC_API_KEY" = Some v → v ≠ "" →
  ∃ self w', __init__ w = (Ok self, w')
             ∧ api_key (model self) = v
             ∧ model_name (model self) = "claude-3-7-sonnet-latest"
             ∧ max_tokens (model self) = 4096
             ∧ _initialized self = false
             ∧ tools self = None ∧ model_with_tools self = None
             ∧ _checkpointer_ctx self = None ∧ agent self = None
             ∧ console w' = console w ∧ stdin w' = stdin w
             ∧ checkpoints w' = checkpoints w.
Proof.
  intros Hkey Hv.
  destruct (init_with_key w v) as (self & Hinit & ? & ? & ? & ? & ? & ? & ? & ?); [|done|].
  { by apply load_dotenv_fold_keeps. }
  exists self, (load_dotenv w).2. by split_and!.
Qed.

Lemma init_takes_environment_key_witness :
  ∃ self w', __init__ sample_world = (Ok self, w')
             ∧ api_key (model self) = "sk-test"
             ∧ model_name (model self) = "claude-3-7-sonnet-latest"
             ∧ max_tokens (model self) = 4096
             ∧ _initialized self = false
             ∧ tools self = None ∧ model_with_tools self = None
             ∧ _checkpointer_ctx self = None ∧ agent self = None
             ∧ console w' = console sample_world ∧ stdin w' = stdin sample_world
             ∧ checkpoints w' = checkpoints sample_world.
Proof.
  refine (init_takes_environment_key sample_world "sk-test" _ _).
  - vm_compute. reflexivity.
  - discriminate.
Defined.

(** X2.  An empty key in the environment is as good as none: [Agent()]
    raises [RuntimeError], also when [.env] holds a key, since [load_dotenv]
    does not replace a variable that is set. *)
Theorem init_rejects_empty_key (w : World) :
  os_environ w !! "ANTHROPIC_API_KEY" = Some "" →
  __init__ w = (Raise (RuntimeError missing_key), (load_dotenv w).2)
  ∧ os_environ (load_dotenv w).2 !! "ANTHROPIC_API_KEY" = Some "".
Proof.
  intros Hkey.
  assert (os_environ (load_dotenv w).2 !! "ANTHROPIC_API_KEY" = Some "") as Hkept.
  { by apply load_dotenv_fold_keeps. }
  split; [|done]. unfold __init__.
  rewrite (bind_ok load_dotenv _ w () (load_dotenv w).2 eq_refl).
  rewrite (bind_ok _ _ _ _ _ (getenv_eq _ _)).
  by rewrite Hkept.
Qed.

Lemma init_rejects_empty_key_witness :
  (("ANTHROPIC_API_KEY", "sk-file") ∈ dotenv_file empty_key_world)
  ∧ __init__ empty_key_world
    = (Raise (RuntimeError missing_key), (load_dotenv empty_key_world).2)
  ∧ os_environ (load_dotenv empty_key_world).2 !! "ANTHROPIC_API_KEY" = Some "".
Proof.
  split; [by left|].
  refine (init_rejects_empty_key empty_key_world _).
  vm_compute. reflexivity.
Defined.

(** X3.  When the environment does not hold the key and [.env], which names
    each variable once, gives it a non-empty value, [Agent()] succeeds with
    the value of [.env], and the variable is set in the environment from then
    on. *)
Theorem init_reads_dotenv (w : World) (v : string) :
  os_environ w !! "ANTHROPIC_API_KEY" = None →
  NoDup (dotenv_file w).*1 →
  ("ANTHROPIC_API_KEY", v) ∈ dotenv_file w →
  v ≠ "" →
  ∃ self w', __init__ w = (Ok self, w')
             ∧ api_key (model self) = v
             ∧ os_environ w' !! "ANTHROPIC_API_KEY" = Some v
             ∧ console w' = console w.
Proof.
  intros Henv Hnodup Hin Hv.
  assert (os_environ (load_dotenv w).2 !! "ANTHROPIC_API_KEY" = Some v) as Hkey.
  { by apply load_dotenv_fold_adds. }
  destruct (init_with_key w v Hkey Hv) as (self & Hinit & Hapi & _).
  by exists self, (load_dotenv w).2.
Qed.

Lemma init_reads_dotenv_witness :
  ∃ self w', __init__ dotenv_world = (Ok self, w')
             ∧ api_key (model self) = "sk-file"
             ∧ os_environ w' !! "ANTHROPIC_API_KEY" = Some "sk-file"
             ∧ console w' = console dotenv_world.
Proof.
  refine (init_reads_dotenv dotenv_world "sk-file" _ _ _ _).
  - vm_compute. reflexivity.
  - simpl. repeat constructor; intros Hin;
      repeat (apply elem_of_cons in Hin as [Hin|Hin]; [discriminate|]);
      by apply elem_of_nil in Hin.
  - right. by left.
  - discriminate.
Defined.

(** ** Initialisation, step by step *)

(** The whole of a first [initialize]. *)
Lemma initialize_run (self0 : Agent) (w : World) :
  _initialized self0 = false →
  let db := path_join (os_getcwd w) "checkpoints.db" in
  initialize (self0, w)
  = match mcp_servers w (os_environ w !! "GITHUB_PERSONAL_ACCESS_TOKEN") with
    | Raise e => (Raise e, (self0, logged [EvInitializing] w))
    | Ok ts =>
      let all := run_unit_tests w :: ts in
      let self1 :=
        set_checkpointer_ctx db
          (set_model_with_tools (model self0, all)
             (set_initialized true (set_tools all self0))) in
      let evs :=
        EvInitializing :: ((λ tb, EvMcpTool (name tb)) <$> ts)
        ++ [EvLoaded (S (length ts)) 1 (length ts); EvBindTools (name <$> all);
            EvOpenCheckpointer db] in
      match sqlite_open w db with
      | Raise e => (Raise e, (self1, logged evs w))
      | Ok _ =>
        (Ok (), (set_agent {| graph := workflow self0; saver := db |}
                   (set_checkpointer db self1),
                 logged (evs ++ [EvCompile; EvReady]) w))
      end
    end.
Proof.
  intros Hflag db. unfold initialize.
  rewrite (bind_ok get _ (self0, w) (self0, w) (self0, w) eq_refl). simpl.
  rewrite Hflag.
  erewrite bind_ok by (rewrite on_world_run; reflexivity). simpl.
  erewrite bind_ok by (rewrite on_world_run; reflexivity). simpl.
  change (with_console (console w ++ [EvInitializing]) w) with (logged [EvInitializing] w).
  destruct (mcp_servers w (os_environ w !! "GITHUB_PERSONAL_ACCESS_TOKEN"))
    as [ts|e] eqn:Hmcp.
  - erewrite bind_ok; cycle 1.
    { rewrite on_world_run, get_mcp_tools_run. simpl. rewrite Hmcp. reflexivity. }
    simpl. st_run. unfold on_self, on_world. st_run.
    fold db. destruct (sqlite_open w db).
    + f_equal. f_equal. unfold logged, with_console. simpl.
      rewrite <- !(assoc_L (++)). reflexivity.
    + f_equal. f_equal. unfold logged, with_console. simpl.
      rewrite <- !(assoc_L (++)). reflexivity.
  - erewrite bind_raise; [done|].
    rewrite on_world_run, get_mcp_tools_run. simpl. rewrite Hmcp. reflexivity.
Qed.

(** X4.  A first [initialize] that reaches the MCP servers and opens the
    database gives the agent the local tool followed by the MCP tools, in the
    order the servers list them, binds exactly these tools to the model, sets
    the flag, and compiles the graph of the constructor with a checkpointer
    on [checkpoints.db] of the working directory.  It prints one line per MCP
    tool and counts one local tool. *)
Theorem initialize_loads_tools (self0 : Agent) (w : World) (ts : list BaseTool) :
  _initialized self0 = false →
  mcp_servers w (os_environ w !! "GITHUB_PERSONAL_ACCESS_TOKEN") = Ok ts →
  sqlite_open w (path_join (os_getcwd w) "checkpoints.db") = Ok () →
  let db := path_join (os_getcwd w) "checkpoints.db" in
  let all := run_unit_tests w :: ts in
  ∃ self w', initialize (self0, w) = (Ok (), (self, w'))
    ∧ tools self = Some all
    ∧ model_with_tools self = Some (model self0, all)
    ∧ _initialized self = true
    ∧ checkpointer self = Some db
    ∧ agent self = Some {| graph := workflow self0; saver := db |}
    ∧ model self = model self0 ∧ workflow self = workflow self0
    ∧ console w'
      = console w ++ EvInitializing :: ((λ tb, EvMcpTool (name tb)) <$> ts)
        ++ [EvLoaded (S (length ts)) 1 (length ts); EvBindTools (name <$> all);
            EvOpenCheckpointer db; EvCompile; EvReady]
    ∧ stdin w' = stdin w ∧ checkpoints w' = checkpoints w.
Proof.
  intros Hflag Hmcp Hdb db all.
  pose proof (initialize_run self0 w Hflag) as Hrun. cbv zeta in Hrun.
  rewrite Hmcp, Hdb in Hrun.
  eexists _, _. split; [exact Hrun|].
  split_and!; try reflexivity.
  simpl. by rewrite <- !(assoc_L (++)).
Qed.

Lemma initialize_loads_tools_witness :
  ∃ self w', initialize (sample_agent0, sample_world) = (Ok (), (self, w'))
    ∧ tools self = Some [passing_tool; broken_tool]
    ∧ model_with_tools self = Some (model sample_agent0, [passing_tool; broken_tool])
    ∧ _initialized self = true
    ∧ checkpointer self = Some "/work/checkpoints.db"
    ∧ agent self = Some {| graph := workflow sample_agent0; saver := "/work/checkpoints.db" |}
    ∧ model self = model sample_agent0 ∧ workflow self = workflow sample_agent0
    ∧ console w'
      = [EvInitializing; EvMcpTool "broken_tool"; EvLoaded 2 1 1;
         EvBindTools ["run_unit_tests"; "broken_tool"];
         EvOpenCheckpointer "/work/checkpoints.db"; EvCompile; EvReady]
    ∧ stdin w' = ["";"hello"] ∧ checkpoints w' = ∅.
Proof.
  refine (initialize_loads_tools sample_agent0 sample_world [broken_tool] _ _ _).
  - vm_compute. reflexivity.
  - reflexivity.
  - reflexivity.
Defined.

(** X5.  When the MCP servers fail, [initialize] raises their exception
    after its first line of output and leaves the agent as it was: the flag
    is not set, so a later call starts over. *)
Theorem initialize_mcp_failure (self0 : Agent) (w : World) (e : exn) :
  _initialized self0 = false →
  mcp_servers w (os_environ w !! "GITHUB_PERSONAL_ACCESS_TOKEN") = Raise e →
  initialize (self0, w) = (Raise e, (self0, logged [EvInitializing] w)).
Proof.
  intros Hflag Hmcp.
  pose proof (initialize_run self0 w Hflag) as Hrun. cbv zeta in Hrun.
  by rewrite Hmcp in Hrun.
Qed.

Lemma initialize_mcp_failure_witness :
  initialize (sample_agent0, offline_world)
  = (Raise ConnectionError, (sample_agent0, logged [EvInitializing] offline_world)).
Proof.
  refine (initialize_mcp_failure sample_agent0 offline_world ConnectionError _ _).
  - vm_compute. reflexivity.
  - reflexivity.
Defined.

(** X6.  When the checkpoint database cannot be opened, [initialize] raises,
    but the flag was set before: the agent is left with tools and a bound
    model and without a compiled graph, every later [initialize] returns at
    once, and [run] fails on the missing attribute. *)
Theorem initialize_checkpointer_failure `{ToolNodeAPI} (self0 : Agent) (w : World)
  (ts : list BaseTool) (e : exn) :
  _initialized self0 = false →
  agent self0 = None →
  mcp_servers w (os_environ w !! "GITHUB_PERSONAL_ACCESS_TOKEN") = Ok ts →
  sqlite_open w (path_join (os_getcwd w) "checkpoints.db") = Raise e →
  ∃ self1 w1, initialize (self0, w) = (Raise e, (self1, w1))
    ∧ _initialized self1 = true
    ∧ tools self1 = Some (run_unit_tests w :: ts)
    ∧ agent self1 = None
    ∧ (∀ w2, initialize (self1, w2) = (Ok (), (self1, w2)))
    ∧ (∀ w2, run self1 w2 = (Raise (AttributeError "Agent" "agent"), w2)).
Proof.
  intros Hflag Hagent Hmcp Hdb.
  pose proof (initialize_run self0 w Hflag) as Hrun. cbv zeta in Hrun.
  rewrite Hmcp, Hdb in Hrun.
  eexists _, _. split; [exact Hrun|].
  split_and!; try done.
  intros w2. unfold run. simpl. by rewrite Hagent.
Qed.

Lemma initialize_checkpointer_failure_witness :
  ∃ self1 w1, initialize (sample_agent0, locked_world) = (Raise OperationalError, (self1, w1))
    ∧ _initialized self1 = true
    ∧ tools self1 = Some [passing_tool; broken_tool]
    ∧ agent self1 = None
    ∧ (∀ w2, initialize (self1, w2) = (Ok (), (self1, w2)))
    ∧ (∀ w2, run (H := langgraph.api true) self1 w2
             = (Raise (AttributeError "Agent" "agent"), w2)).
Proof.
  refine (initialize_checkpointer_failure (H := langgraph.api true)
            sample_agent0 locked_world [broken_tool] OperationalError _ _ _ _).
  - vm_compute. reflexivity.
  - vm_compute. reflexivity.
  - reflexivity.
  - reflexivity.
Defined.

(** The agent a successful [Agent()] returns, attribute by attribute. *)
Lemma init_fresh (w0 w1 : World) (self : Agent) :
  __init__ w0 = (Ok self, w1) →
  _initialized self = false
  ∧ tools self = None ∧ model_with_tools self = None
  ∧ _checkpointer_ctx self = None ∧ agent self = None
  ∧ workflow self = workflow sample_agent0.
Proof.
  unfold __init__.
  rewrite (bind_ok load_dotenv _ w0 () (load_dotenv w0).2 eq_refl).
  rewrite (bind_ok _ _ _ _ _ (getenv_eq _ _)).
  destruct (falsy_str _); [done|].
  intros [= <- _]. by split_and!.
Qed.

(** X7.  On an agent that was constructed and not initialised, every method
    fails on a missing attribute and leaves the world alone: [run],
    [tool_use] and [model_response] raise [AttributeError] (the provider is
    not asked), [print_mermaid_workflow] raises from inside its own [except]
    branch, after printing the first error, and [close_checkpointer] does
    nothing. *)
Theorem uninitialized_agent_fails `{ToolNodeAPI} (w0 w1 w : World) (self : Agent)
  (state : AgentState) :
  __init__ w0 = (Ok self, w1) →
  run self w = (Raise (AttributeError "Agent" "agent"), w)
  ∧ tool_use self state w = (Raise (AttributeError "Agent" "tools"), w)
  ∧ model_response self state w
    = (Raise (AttributeError "Agent" "model_with_tools"), w)
  ∧ print_mermaid_workflow self w
    = (Raise (AttributeError "Agent" "agent"),
       logged [EvMermaidError "'Agent' object has no attribute 'agent'"] w)
  ∧ close_checkpointer self w = (Ok (), w).
Proof.
  intros Hinit.
  destruct (init_fresh _ _ _ Hinit) as (_ & Htools & Hmodel & Hctx & Hagent & _).
  unfold run, tool_use, model_response, print_mermaid_workflow, close_checkpointer, getcwd.
  rewrite Htools, Hmodel, Hctx, Hagent. by split_and!.
Qed.

Lemma uninitialized_agent_fails_witness :
  let state := asks [call "run_unit_tests" "call_1"] in
  run (H := langgraph.api true) sample_agent0 sample_world
  = (Raise (AttributeError "Agent" "agent"), sample_world)
  ∧ tool_use (H := langgraph.api true) sample_agent0 state sample_world
    = (Raise (AttributeError "Agent" "tools"), sample_world)
  ∧ model_response sample_agent0 state sample_world
    = (Raise (AttributeError "Agent" "model_with_tools"), sample_world)
  ∧ print_mermaid_workflow sample_agent0 sample_world
    = (Raise (AttributeError "Agent" "agent"),
       logged [EvMermaidError "'Agent' object has no attribute 'agent'"] sample_world)
  ∧ close_checkpointer sample_agent0 sample_world = (Ok (), sample_world).
Proof.
  intros state.
  refine (uninitialized_agent_fails (H := langgraph.api true)
            sample_world (__init__ sample_world).2 sample_world sample_agent0 state _).
  vm_compute. reflexivity.
Defined.

(** ** What a node touches *)

Lemma console_only_pure {A} (c : St World A) :
  (∀ w, (c w).2 = w) → console_only c.
Proof. intros Hc w. exists []. by rewrite Hc, logged_nil. Qed.

Lemma console_only_emit ev : prompts [ev] = [] → console_only (emit ev).
Proof. intros Hev w. by exists [ev]. Qed.

Lemma console_only_bind {A B} (c : St World A) (k : A → St World B) :
  console_only c → (∀ a, console_only (k a)) → console_only (c ≫= k).
Proof.
  intros Hc Hk w. destruct (Hc w) as (evs1 & H1 & Hp1).
  destruct (c w) as [[a|e] w1] eqn:Hcw; simpl in H1; subst w1.
  - rewrite (bind_ok _ _ _ _ _ Hcw). destruct (Hk a (logged evs1 w)) as (evs2 & H2 & Hp2).
    exists (evs1 ++ evs2). by rewrite H2, logged_logged, prompts_app, Hp1, Hp2.
  - rewrite (bind_raise _ _ _ _ _ Hcw). by exists evs1.
Qed.

Lemma with_stdin_same w : with_stdin (stdin w) w = w.
Proof. by destruct w. Qed.

Section console_only_tools.
Context `{ToolNodeAPI}.

Lemma console_only_handler tc response e : console_only (handler tc response e).
Proof.
  unfold handler. destruct (is_Exception e).
  - apply console_only_bind; [by apply console_only_emit|intros _].
    by apply console_only_pure.
  - by apply console_only_pure.
Qed.

Lemma console_only_attempt node state tc response :
  console_only (attempt node state tc response).
Proof.
  unfold attempt. destruct (ainvoke node state) as [msgs|e]; [|apply console_only_handler].
  apply console_only_bind; [by apply console_only_emit|intros _].
  destruct (index_first msgs) as [m|e]; [|apply console_only_handler].
  destruct (framed (content m)) as [text|e]; [|apply console_only_handler].
  apply console_only_bind; [by apply console_only_emit|intros _].
  by apply console_only_pure.
Qed.

Lemma console_only_tool_use_loop tools_by_name state tcs response :
  console_only (tool_use_loop tools_by_name state tcs response).
Proof.
  revert response. induction tcs as [|tc tcs IH]; intros response; simpl.
  - by apply console_only_pure.
  - apply console_only_bind; [by apply console_only_emit|intros _].
    apply console_only_bind; [by apply console_only_emit|intros _].
    apply console_only_bind; [by apply console_only_pure|intros node].
    apply console_only_bind; [apply console_only_attempt|intros r]. apply IH.
Qed.

Lemma console_only_tool_use self state : console_only (tool_use self state).
Proof.
  unfold tool_use.
  apply console_only_bind; [destruct (tools self); by apply console_only_pure|intros ts].
  apply console_only_bind; [by apply console_only_pure|intros m].
  apply console_only_bind; [by apply console_only_pure|intros tcs].
  apply console_only_bind; [apply console_only_tool_use_loop|intros r].
  by apply console_only_pure.
Qed.

End console_only_tools.

(** The world after [model_response]: the console has the one prompt and
    the panels more. *)
Lemma model_response_world self state w :
  ∃ evs, (model_response self state w).2 = logged evs w
         ∧ (length (prompts evs) ≤ 1)%nat.
Proof.
  destruct (model_with_tools self) as [m|] eqn:Hm.
  - destruct (model_response_run self state w m Hm) as (evs & Hp & ->).
    eexists. split.
    + destruct (anthropic w _ _); reflexivity.
    + simpl. rewrite Hp. simpl. lia.
  - unfold model_response, getcwd. st_run. rewrite Hm. simpl.
    exists []. rewrite logged_nil. split; [done | simpl; lia].
Qed.

(** The world after [user_input]: one line less to read, at most. *)
Lemma user_input_world self state w :
  ∃ evs, (user_input self state w).2 = logged evs (with_stdin (drop 1 (stdin w)) w)
         ∧ prompts evs = [].
Proof.
  unfold user_input, console_input. st_run.
  destruct (stdin w) as [|line rest] eqn:Hin; simpl.
  - exists [EvUserInput]. split; [|done].
    rewrite <- Hin, with_stdin_same. reflexivity.
  - exists [EvUserInput; EvInput line]. split; [|done].
    unfold logged, with_console, with_stdin. simpl. by rewrite <- (assoc_L (++)).
Qed.

(** ** How many messages a batch gives *)

Section batch.
Context `{ToolNodeAPI}.

(** The [try] statement on an answerable call: one or two messages more,
    and one when the node answers plainly. *)
Lemma attempt_counts node state tc response w :
  (∀ e, ainvoke node state = Raise e → is_Exception e = true) →
  ∃ r w', attempt node state tc response w = (Ok r, w')
    ∧ (length response + 1 ≤ length r ≤ length response + 2)%nat
    ∧ ((∀ msgs, ainvoke node state = Ok msgs → ∃ m rest s, msgs = m :: rest ∧ content m = Str s)
       → length r = S (length response)).
Proof.
  intros Hexc. unfold attempt, handler.
  destruct (ainvoke node state) as [msgs|e] eqn:Hinv.
  - st_run. destruct msgs as [|m msgs]; simpl.
    + eexists _, _. split; [done|]. rewrite length_app. simpl. split; [lia|].
      intros _. lia.
    + destruct (content m) as [s|bs] eqn:Hcontent; simpl.
      * eexists _, _. split; [done|]. rewrite length_app. simpl. split; [lia|].
        intros _. lia.
      * eexists _, _. split; [done|]. rewrite !length_app. simpl. split; [lia|].
        intros Hplain. destruct (Hplain _ eq_refl) as (m' & rest & s & [= <- _] & Hs).
        by rewrite Hcontent in Hs.
  - rewrite (Hexc e eq_refl). st_run.
    eexists _, _. split; [done|]. rewrite length_app. simpl. split; [lia|].
    intros _. lia.
Qed.

Lemma tool_use_loop_counts tools_by_name state tcs response w :
  Forall (answerable tools_by_name state) tcs →
  ∃ r w', tool_use_loop tools_by_name state tcs response w = (Ok r, w')
    ∧ (length response + length tcs ≤ length r ≤ length response + 2 * length tcs)%nat
    ∧ (Forall (plainly_answered tools_by_name state) tcs
       → length r = (length response + length tcs)%nat).
Proof.
  intros Htcs. revert response w.
  induction Htcs as [|tc tcs (t & node & Ht & Hnode & Hexc) _ IH]; intros response w.
  - exists response, w. split; [done|]. simpl. split; [lia|]. intros _. lia.
  - rewrite (tool_use_loop_held _ _ _ _ _ _ _ _ Ht Hnode).
    destruct (attempt_counts node state tc response
                (logged [EvInvoking (tc_name tc) (tc_args tc); EvFound (Some (name t))] w)
                Hexc) as (r1 & w1 & -> & Hlen1 & Hplain1).
    destruct (IH r1 w1) as (r & w' & -> & Hlen & Hplain).
    exists r, w'. split; [done|]. simpl. split; [lia|].
    intros Hall. apply Forall_cons in Hall as [Htc Hall].
    rewrite (Hplain Hall), Hplain1; [lia|].
    intros msgs Hmsgs. by apply (Htc t node msgs).
Qed.

(** [tool_use] on a state that ends with an assistant message. *)
Lemma tool_use_on_batch self state ts ms c tcs i w :
  tools self = Some ts →
  messages state = ms ++ [AIMessage c tcs i] →
  tool_use self state w
  = match tool_use_loop (by_name ts) state tcs [] w with
    | (Ok r, w') => (Ok {| messages := r |}, w')
    | (Raise e, w') => (Raise e, w')
    end.
Proof.
  intros Htools Hmessages. unfold tool_use, index_last.
  rewrite Htools, Hmessages, last_snoc. simpl.
  rewrite (bind_ok (mret ts) _ w ts w eq_refl).
  rewrite (bind_ok (lift (Ok (AIMessage c tcs i))) _ w (AIMessage c tcs i) w eq_refl).
  simpl.
  rewrite (bind_ok (lift (Ok tcs)) _ w tcs w eq_refl).
  destruct (tool_use_loop (by_name ts) state tcs [] w) as [[r|e] w'] eqn:Hloop.
  - by rewrite (bind_ok _ _ _ _ _ Hloop).
  - by rewrite (bind_raise _ _ _ _ _ Hloop).
Qed.

End batch.

(** X9.  On a batch of K calls that are all answerable (the tool is held,
    its node is built, the invocation raises nothing but [Exception]s),
    [tool_use] returns, whichever of the calls fail, with at least K and at
    most 2K messages: a call gives two when showing its result fails after
    the result was appended. *)
Theorem tool_use_answers_every_call `{ToolNodeAPI} (self : Agent) (state : AgentState)
  (ts : list BaseTool) (ms : list BaseMessage) (c : Content) (tcs : list ToolCall)
  (i : option string) (w : World) :
  tools self = Some ts →
  messages state = ms ++ [AIMessage c tcs i] →
  Forall (answerable (by_name ts) state) tcs →
  ∃ r w', tool_use self state w = (Ok {| messages := r |}, w')
          ∧ (length tcs ≤ length r ≤ 2 * length tcs)%nat.
Proof.
  intros Htools Hmessages Htcs.
  rewrite (tool_use_on_batch _ _ _ _ _ _ _ _ Htools Hmessages).
  destruct (tool_use_loop_counts (by_name ts) state tcs [] w Htcs)
    as (r & w' & -> & Hlen & _).
  exists r, w'. split; [done|]. simpl in Hlen. lia.
Qed.

(** The calls of the sample batch are answerable by the library's node. *)
Lemma sample_batch_answerable :
  let state := asks [call "run_unit_tests" "call_1"; call "broken_tool" "call_2"] in
  Forall (answerable (H := langgraph.api true) (by_name [passing_tool; broken_tool]) state)
    [call "run_unit_tests" "call_1"; call "broken_tool" "call_2"].
Proof.
  intros state. repeat constructor.
  - exists passing_tool, [passing_tool]. split_and!; [by vm_compute|done|].
    intros e. vm_compute. discriminate.
  - exists broken_tool, [broken_tool]. split_and!; [by vm_compute|done|].
    intros e. vm_compute. discriminate.
Qed.

Lemma tool_use_answers_every_call_witness :
  let tcs := [call "run_unit_tests" "call_1"; call "broken_tool" "call_2"] in
  ∃ r w', tool_use (H := langgraph.api true) sample_agent (asks tcs) sample_world
          = (Ok {| messages := r |}, w')
          ∧ (length tcs ≤ length r ≤ 2 * length tcs)%nat.
Proof.
  intros tcs.
  refine (tool_use_answers_every_call (H := langgraph.api true) sample_agent (asks tcs)
            [passing_tool; broken_tool]
            [ AIMessage (Str "What can I do for you?") [] (Some "u");
              HumanMessage (Str "run the tests") (Some "uu") ]
            (Str "") tcs (Some "msg_02") sample_world _ _ _).
  - vm_compute. reflexivity.
  - reflexivity.
  - exact sample_batch_answerable.
Defined.

(** X10.  When moreover every node that returns returns a first message
    whose content is a string, [tool_use] returns exactly one message per
    call, K for K calls, none for an empty batch. *)
Theorem tool_use_one_message_per_call `{ToolNodeAPI} (self : Agent)
  (state : AgentState) (ts : list BaseTool) (ms : list BaseMessage) (c : Content)
  (tcs : list ToolCall) (i : option string) (w : World) :
  tools self = Some ts →
  messages state = ms ++ [AIMessage c tcs i] →
  Forall (answerable (by_name ts) state) tcs →
  Forall (plainly_answered (by_name ts) state) tcs →
  ∃ r w', tool_use self state w = (Ok {| messages := r |}, w')
          ∧ length r = length tcs.
Proof.
  intros Htools Hmessages Htcs Hplain.
  rewrite (tool_use_on_batch _ _ _ _ _ _ _ _ Htools Hmessages).
  destruct (tool_use_loop_counts (by_name ts) state tcs [] w Htcs)
    as (r & w' & -> & _ & Hlen).
  exists r, w'. split; [done|]. by rewrite (Hlen Hplain).
Qed.

Lemma sample_batch_plain :
  let state := asks [call "run_unit_tests" "call_1"; call "broken_tool" "call_2"] in
  Forall (plainly_answered (H := langgraph.api true)
            (by_name [passing_tool; broken_tool]) state)
    [call "run_unit_tests" "call_1"; call "broken_tool" "call_2"].
Proof.
  intros state. repeat constructor.
  - intros t node msgs Ht. vm_compute in Ht. injection Ht as <-.
    intros [= <-]. vm_compute. intros [= <-]. by eexists _, _, _.
  - intros t node msgs Ht. vm_compute in Ht. injection Ht as <-.
    intros [= <-]. vm_compute. intros [= <-]. by eexists _, _, _.
Qed.

Lemma tool_use_one_message_per_call_witness :
  let tcs := [call "run_unit_tests" "call_1"; call "broken_tool" "call_2"] in
  ∃ r w', tool_use (H := langgraph.api true) sample_agent (asks tcs) sample_world
          = (Ok {| messages := r |}, w')
          ∧ length r = length tcs.
Proof.
  intros tcs.
  refine (tool_use_one_message_per_call (H := langgraph.api true) sample_agent (asks tcs)
            [passing_tool; broken_tool]
            [ AIMessage (Str "What can I do for you?") [] (Some "u");
              HumanMessage (Str "run the tests") (Some "uu") ]
            (Str "") tcs (Some "msg_02") sample_world _ _ _ _).
  - vm_compute. reflexivity.
  - reflexivity.
  - exact sample_batch_answerable.
  - exact sample_batch_plain.
Defined.

(** ** Steps of the graph *)

Section graph_steps.
Context `{ToolNodeAPI}.

Lemma steps_unfold self g thread_id limit node state f w :
  assoc node (nodes (graph g)) = Some f →
  steps self g thread_id (S limit) node state w
  = (run_node self f state ≫= after_node self g thread_id limit node state) w.
Proof.
  intros Hnode. simpl. rewrite Hnode.
  by rewrite (bind_ok (lift (Ok f)) _ w f w eq_refl).
Qed.

Lemma extends_after_node self g thread_id limit node state update :
  extends (after_node self g thread_id limit node state update).
Proof.
  unfold after_node.
  apply extends_bind; [by apply extends_silent|intros _].
  apply extends_bind; [by apply extends_silent|intros next].
  destruct next; [apply extends_steps | by apply extends_silent].
Qed.

(** A step on [model_response] whose provider answers: the prompt, then
    what the rest of the run sends. *)
Lemma steps_model_response_prompts self g thread_id limit node state w m :
  assoc node (nodes (graph g)) = Some self_model_response →
  model_with_tools self = Some m →
  ∃ more,
    prompts (console (steps self g thread_id (S limit) node state w).2)
    = prompts (console w)
      ++ [ SystemMessage (Blocks [TextBlock (Some system_text) (Some "ephemeral")]) None
           :: HumanMessage (Str ("Working directory: " +:+ os_getcwd w)) None
           :: messages state ]
      ++ more.
Proof.
  intros Hnode Hm. rewrite (steps_unfold _ _ _ _ _ _ _ _ Hnode). simpl run_node.
  destruct (model_response_run self state w m Hm) as (evs & Hp & Hrun).
  cbv zeta in Hrun.
  destruct (anthropic w _ _) as [c|e].
  - rewrite (bind_ok _ _ _ _ _ Hrun).
    match goal with |- context [after_node ?a ?b ?c ?d ?e ?f ?u ?w1] =>
      destruct (extends_after_node a b c d e f u w1) as [evs' ->] end.
    exists (prompts evs'). unfold logged. simpl.
    rewrite !prompts_app. simpl. by rewrite Hp, <- !(assoc_L (++)).
  - rewrite (bind_raise _ _ _ _ _ Hrun). exists [].
    unfold logged. simpl. rewrite prompts_app. simpl. by rewrite Hp.
Qed.

End graph_steps.

(** X11.  The provider's failure is not handled: a step of the graph on
    [model_response] whose provider raises ends the run with that exception,
    right after the prompt is sent.  Nothing is appended to the conversation
    and nothing is saved. *)
Theorem provider_failure_ends_run `{ToolNodeAPI} (self : Agent) (g : CompiledGraph)
  (thread_id node : string) (limit : nat) (state : AgentState) (w : World)
  (m : ChatAnthropic * list BaseTool) (e : exn) :
  let prompt :=
    SystemMessage (Blocks [TextBlock (Some system_text) (Some "ephemeral")]) None
    :: HumanMessage (Str ("Working directory: " +:+ os_getcwd w)) None
    :: messages state in
  assoc node (nodes (graph g)) = Some self_model_response →
  model_with_tools self = Some m →
  anthropic w (name <$> m.2) prompt = Raise e →
  steps self g thread_id (S limit) node state w
  = (Raise e, logged [EvInvokeModel (name <$> m.2) prompt] w)
  ∧ checkpoints (steps self g thread_id (S limit) node state w).2 = checkpoints w.
Proof.
  intros prompt Hnode Hm He.
  assert (steps self g thread_id (S limit) node state w
          = (Raise e, logged [EvInvokeModel (name <$> m.2) prompt] w)) as Heq.
  { rewrite (steps_unfold _ _ _ _ _ _ _ _ Hnode). simpl run_node.
    apply bind_raise. unfold model_response, invoke_model, getcwd. st_run.
    rewrite Hm. simpl. fold prompt. by rewrite He. }
  split; [exact Heq|]. by rewrite Heq.
Qed.

Lemma provider_failure_ends_run_witness :
  let state := {| messages := [ AIMessage (Str "What can I do for you?") [] (Some "u");
                                HumanMessage (Str "hello") (Some "uu") ] |} in
  let prompt :=
    SystemMessage (Blocks [TextBlock (Some system_text) (Some "ephemeral")]) None
    :: HumanMessage (Str "Working directory: /work") None
    :: messages state in
  steps (H := langgraph.api true) sample_agent sample_graph "1" 24 "model_response"
    state unreachable_world
  = (Raise APIError,
     logged [EvInvokeModel ["run_unit_tests"; "broken_tool"] prompt] unreachable_world)
  ∧ checkpoints (steps (H := langgraph.api true) sample_agent sample_graph "1" 24
                   "model_response" state unreachable_world).2
    = checkpoints unreachable_world.
Proof.
  intros state prompt.
  refine (provider_failure_ends_run (H := langgraph.api true) sample_agent sample_graph
            "1" "model_response" 23 state unreachable_world
            (model sample_agent, [passing_tool; broken_tool]) APIError _ _ _).
  - vm_compute. reflexivity.
  - vm_compute. reflexivity.
  - reflexivity.
Defined.

(** X12.  At the end of the input, a step of the graph on [user_input] ends
    the run with [EOFError], after the prompt for input was printed; the
    conversation is as it was saved before. *)
Theorem end_of_input_ends_run `{ToolNodeAPI} (self : Agent) (g : CompiledGraph)
  (thread_id node : string) (limit : nat) (state : AgentState) (w : World) :
  assoc node (nodes (graph g)) = Some self_user_input →
  stdin w = [] →
  steps self g thread_id (S limit) node state w
  = (Raise EOFError, logged [EvUserInput] w).
Proof.
  intros Hnode Hin. rewrite (steps_unfold _ _ _ _ _ _ _ _ Hnode). simpl run_node.
  apply bind_raise. unfold user_input, console_input. st_run. by rewrite Hin.
Qed.

Lemma end_of_input_ends_run_witness :
  steps (H := langgraph.api true) sample_agent sample_graph "1" 25 "user_input"
    {| messages := [greeting] |} (with_stdin [] sample_world)
  = (Raise EOFError, logged [EvUserInput] (with_stdin [] sample_world)).
Proof.
  refine (end_of_input_ends_run (H := langgraph.api true) sample_agent sample_graph
            "1" "user_input" 24 {| messages := [greeting] |}
            (with_stdin [] sample_world) _ _).
  - vm_compute. reflexivity.
  - reflexivity.
Defined.

(** ** From one node to the next *)

(** What [Agent()] and a successful [initialize] leave: the compiled graph
    of the constructor and a model bound to the tools. *)
Lemma initialized_agent (w0 w1 w2 : World) (self0 self : Agent) :
  __init__ w0 = (Ok self0, w1) →
  initialize (self0, w1) = (Ok (), (self, w2)) →
  ∃ g m, agent self = Some g ∧ graph g = workflow sample_agent0
         ∧ model_with_tools self = Some m ∧ tools self = Some m.2.
Proof.
  intros Hinit Hinitialize.
  destruct (init_fresh _ _ _ Hinit) as (Hflag & _ & _ & _ & _ & Hworkflow).
  rewrite (initialize_run self0 w1 Hflag) in Hinitialize. cbv zeta in Hinitialize.
  destruct (mcp_servers w1 _) as [ts|]; [|done].
  destruct (sqlite_open w1 _); [|done].
  injection Hinitialize as <- _. simpl. rewrite <- Hworkflow. by eexists _, _.
Qed.

Section node_to_node.
Context `{ToolNodeAPI}.

(** After a node whose fixed edge leads to [model_response]: the prompt of
    the next model call is the preamble, the working directory, and the
    conversation merged with what the node returned. *)
Lemma steps_then_model_response self g thread_id limit node f state w update evs lines m :
  assoc node (nodes (graph g)) = Some f →
  assoc node (edges (graph g)) = Some "model_response" →
  assoc "model_response" (nodes (graph g)) = Some self_model_response →
  model_with_tools self = Some m →
  run_node self f state w = (Ok update, logged evs (with_stdin lines w)) →
  prompts evs = [] →
  ∃ more,
    prompts (console (steps self g thread_id (S (S limit)) node state w).2)
    = prompts (console w)
      ++ [ SystemMessage (Blocks [TextBlock (Some system_text) (Some "ephemeral")]) None
           :: HumanMessage (Str ("Working directory: " +:+ os_getcwd w)) None
           :: add_messages (messages state) (messages update) ]
      ++ more.
Proof.
  intros Hnode Hedge Hmodel Hm Hrun Hevs.
  rewrite (steps_unfold _ _ _ _ _ _ _ _ Hnode).
  rewrite (bind_ok _ _ _ _ _ Hrun).
  unfold after_node, successor. rewrite Hedge.
  erewrite bind_ok by reflexivity.
  erewrite bind_ok by reflexivity. cbv beta iota.
  match goal with |- context [steps self g thread_id (S limit) _ ?st ?w'] =>
    destruct (steps_model_response_prompts self g thread_id limit "model_response"
                st w' m Hmodel Hm) as [more ->] end.
  exists more. simpl. by rewrite prompts_app, Hevs, app_nil_r.
Qed.

End node_to_node.

(** X13.  What the user types reaches the model as it is: in the graph of an
    initialised agent, a step on [user_input] that reads a line is followed
    by a model call whose prompt is the preamble, the working directory, the
    conversation so far, and last a user message with that line. *)
Theorem user_line_reaches_model `{ToolNodeAPI} (w0 w1 w2 w : World) (self0 self : Agent)
  (g : CompiledGraph) (thread_id : string) (limit : nat) (state : AgentState)
  (line : string) (rest : list string) :
  __init__ w0 = (Ok self0, w1) →
  initialize (self0, w1) = (Ok (), (self, w2)) →
  agent self = Some g →
  stdin w = line :: rest →
  has_ids (messages state) →
  ∃ i more,
    prompts (console (steps self g thread_id (S (S limit)) "user_input" state w).2)
    = prompts (console w)
      ++ [ SystemMessage (Blocks [TextBlock (Some system_text) (Some "ephemeral")]) None
           :: HumanMessage (Str ("Working directory: " +:+ os_getcwd w)) None
           :: messages state ++ [HumanMessage (Str line) (Some i)] ]
      ++ more.
Proof.
  intros Hinit Hinitialize Hagent Hin Hids.
  destruct (initialized_agent _ _ _ _ _ Hinit Hinitialize) as (g' & m & Hg' & Hgraph & Hm & _).
  rewrite Hagent in Hg'. injection Hg' as <-.
  destruct (add_messages_one (messages state) (HumanMessage (Str line) None) Hids)
    as (stored & Hadd & Hrole & Hcontent & _ & _ & [i Hi] & _); [by intros i|].
  assert (stored = HumanMessage (Str line) (Some i)) as ->.
  { destruct stored; simpl in *; try done. by subst. }
  destruct (steps_then_model_response self g thread_id limit "user_input" self_user_input
              state w {| messages := [HumanMessage (Str line) None] |}
              [EvUserInput; EvInput line] rest m) as [more Hmore];
    try (rewrite Hgraph; vm_compute; reflexivity); try done.
  { simpl. unfold user_input, console_input. st_run. rewrite Hin.
    unfold logged, with_console, with_stdin. simpl. by rewrite <- (assoc_L (++)). }
  exists i, more. rewrite Hmore. simpl. by rewrite Hadd.
Qed.

Lemma user_line_reaches_model_witness :
  let state := {| messages := [AIMessage (Str "What can I do for you?") [] (Some "u")] |} in
  ∃ i more,
    prompts (console (steps (H := langgraph.api true) sample_agent sample_graph "1" 25
                        "user_input" state sample_world).2)
    = prompts (console sample_world)
      ++ [ SystemMessage (Blocks [TextBlock (Some system_text) (Some "ephemeral")]) None
           :: HumanMessage (Str "Working directory: /work") None
           :: messages state ++ [HumanMessage (Str "") (Some i)] ]
      ++ more.
Proof.
  intros state.
  refine (user_line_reaches_model (H := langgraph.api true)
            sample_world (__init__ sample_world).2
            (initialize (sample_agent0, (__init__ sample_world).2)).2.2
            sample_world sample_agent0 sample_agent sample_graph "1" 23 state
            "" ["hello"] _ _ _ _ _).
  - vm_compute. reflexivity.
  - vm_compute. reflexivity.
  - vm_compute. reflexivity.
  - reflexivity.
  - repeat constructor; simpl; eauto.
Defined.

(** X14.  Tool results go back to the model: in the graph of an initialised
    agent, a step on [tool_use] that returns is followed by a model call
    whose prompt is the preamble, the working directory, and the conversation
    with the returned tool messages merged in. *)
Theorem tool_results_reach_model `{ToolNodeAPI} (w0 w1 w2 w w' : World)
  (self0 self : Agent) (g : CompiledGraph) (thread_id : string) (limit : nat)
  (state update : AgentState) :
  __init__ w0 = (Ok self0, w1) →
  initialize (self0, w1) = (Ok (), (self, w2)) →
  agent self = Some g →
  tool_use self state w = (Ok update, w') →
  ∃ more,
    prompts (console (steps self g thread_id (S (S limit)) "tool_use" state w).2)
    = prompts (console w)
      ++ [ SystemMessage (Blocks [TextBlock (Some system_text) (Some "ephemeral")]) None
           :: HumanMessage (Str ("Working directory: " +:+ os_getcwd w)) None
           :: add_messages (messages state) (messages update) ]
      ++ more.
Proof.
  intros Hinit Hinitialize Hagent Hrun.
  destruct (initialized_agent _ _ _ _ _ Hinit Hinitialize) as (g' & m & Hg' & Hgraph & Hm & _).
  rewrite Hagent in Hg'. injection Hg' as <-.
  destruct (console_only_tool_use self state w) as (evs & Hw & Hevs).
  rewrite Hrun in Hw. simpl in Hw. subst w'.
  apply (steps_then_model_response self g thread_id limit "tool_use" self_tool_use
           state w update evs (stdin w) m);
    try (rewrite Hgraph; vm_compute; reflexivity); try done.
Qed.

Lemma tool_results_reach_model_witness :
  let state := asks [call "run_unit_tests" "call_1"] in
  ∃ more,
    prompts (console (steps (H := langgraph.api true) sample_agent sample_graph "1" 25
                        "tool_use" state sample_world).2)
    = prompts (console sample_world)
      ++ [ SystemMessage (Blocks [TextBlock (Some system_text) (Some "ephemeral")]) None
           :: HumanMessage (Str "Working directory: /work") None
           :: add_messages (messages state) [ToolMessage (Str "2 passed") "call_1" None] ]
      ++ more.
Proof.
  intros state.
  refine (tool_results_reach_model (H := langgraph.api true)
            sample_world (__init__ sample_world).2
            (initialize (sample_agent0, (__init__ sample_world).2)).2.2
            sample_world
            (tool_use (H := langgraph.api true) sample_agent state sample_world).2
            sample_agent0 sample_agent sample_graph "1" 23 state
            {| messages := [ToolMessage (Str "2 passed") "call_1" None] |} _ _ _ _).
  - vm_compute. reflexivity.
  - vm_compute. reflexivity.
  - vm_compute. reflexivity.
  - vm_compute. reflexivity.
Defined.

(** ** The saved conversation over a run *)

Section history.
Context `{ToolNodeAPI}.

(** What a node returns carries no stored id, when the provider and the tool
    node give none. *)
Lemma run_node_update_fresh self f state w update w' :
  provider_ids_new w →
  tool_node_ids_new →
  run_node self f state w = (Ok update, w') →
  Forall (fresh_for (ids_of (messages state))) (messages update).
Proof.
  intros Hprovider Hnode Hrun. destruct f; simpl in Hrun.
  - unfold user_input, console_input in Hrun. st_run in Hrun.
    destruct (stdin w); [done|]. injection Hrun as <- _.
    repeat constructor. by apply no_id_fresh.
  - destruct (model_with_tools self) as [m|] eqn:Hm.
    + destruct (model_response_run self state w m Hm) as (evs & _ & Heq).
      rewrite Heq in Hrun.
      destruct (anthropic w _ _) as [c|e] eqn:Hc; [|done].
      injection Hrun as <- _. repeat constructor.
      intros i Hi. by apply (Hprovider _ _ _ Hc i Hi).
    + unfold model_response, getcwd in Hrun. st_run in Hrun. by rewrite Hm in Hrun.
  - destruct (console_only_tool_use self state w) as (evs & Hw & _).
    unfold tool_use in Hrun.
    destruct (tools self) as [ts|]; [|done].
    rewrite (bind_ok (getattr "tools" (Some ts)) _ _ ts _ eq_refl) in Hrun.
    destruct (index_last (messages state)) as [m|e] eqn:Hlast;
      [|by rewrite (bind_raise (lift (Raise e)) _ _ e _ eq_refl) in Hrun].
    rewrite (bind_ok (lift (Ok m)) _ _ m _ eq_refl) in Hrun.
    destruct (get_tool_calls m) as [tcs|e] eqn:Htcs;
      [|by rewrite (bind_raise (lift (Raise e)) _ _ e _ eq_refl) in Hrun].
    rewrite (bind_ok (lift (Ok tcs)) _ _ tcs _ eq_refl) in Hrun.
    destruct (tool_use_loop (by_name ts) state tcs [] w) as [[r|e] w1] eqn:Hloop.
    + rewrite (bind_ok _ _ _ _ _ Hloop) in Hrun. injection Hrun as <- _. simpl.
      eapply tool_use_loop_Forall; [| |constructor|exact Hloop].
      * intros node msgs. apply Hnode.
      * intros tc e. by apply no_id_fresh.
    + by rewrite (bind_raise _ _ _ _ _ Hloop) in Hrun.
Qed.

(** The world after a node: the console and the input apart, the world
    before. *)
Lemma run_node_world self f state w :
  ∃ evs lines, (run_node self f state w).2 = logged evs (with_stdin lines w).
Proof.
  destruct f; simpl.
  - destruct (user_input_world self state w) as (evs & -> & _). by eexists _, _.
  - destruct (model_response_world self state w) as (evs & -> & _).
    exists evs, (stdin w). by rewrite with_stdin_same.
  - destruct (console_only_tool_use self state w) as (evs & -> & _).
    exists evs, (stdin w). by rewrite with_stdin_same.
Qed.

(** Over any number of steps, what is saved under the thread extends what
    was saved before. *)
Lemma steps_history self g thread_id limit node state w :
  has_ids (messages state) →
  provider_ids_new w →
  tool_node_ids_new →
  checkpoints w !! thread_id = Some (messages state) →
  ∃ ms, checkpoints (steps self g thread_id limit node state w).2 !! thread_id = Some ms
        ∧ messages state `prefix_of` ms ∧ has_ids ms.
Proof.
  intros Hids Hprovider Hnode. revert node state w Hids Hprovider.
  induction limit as [|limit IH]; intros node state w Hids Hprovider Hsaved.
  - exists (messages state). by split_and!.
  - destruct (assoc node (nodes (graph g))) as [f|] eqn:Hf.
    + rewrite (steps_unfold _ _ _ _ _ _ _ _ Hf).
      destruct (run_node_world self f state w) as (evs & lines & Hw1).
      destruct (run_node self f state w) as [[update|e] w1] eqn:Hrun; simpl in Hw1; subst w1.
      * rewrite (bind_ok _ _ _ _ _ Hrun). unfold after_node.
        erewrite bind_ok by reflexivity.
        pose proof (run_node_update_fresh _ _ _ _ _ _ Hprovider Hnode Hrun) as Hfresh.
        destruct (add_messages_prefix _ _ Hids Hfresh) as [new Hnew].
        pose proof (add_messages_has_ids (messages state) (messages update)) as Hids'.
        set (state' := {| messages := add_messages (messages state) (messages update) |}).
        destruct (successor self (graph g) node state') as [[node'|]|e] eqn:Hnext.
        -- erewrite bind_ok by reflexivity. cbv beta iota.
           match goal with |- context [steps self g thread_id limit node' state' ?w2] =>
             destruct (IH node' state' w2) as (ms & Hms & Hprefix & Hhas);
               [exact Hids' | exact Hprovider | simpl; apply lookup_insert_eq |]
           end.
           exists ms. split; [exact Hms|]. split; [|done].
           etrans; [|exact Hprefix]. simpl. rewrite Hnew. by apply prefix_app_r.
        -- erewrite bind_ok by reflexivity.
           exists (messages state'). simpl. rewrite lookup_insert_eq.
           split; [done|]. split; [|done]. rewrite Hnew. by apply prefix_app_r.
        -- erewrite bind_raise by reflexivity.
           exists (messages state'). simpl. rewrite lookup_insert_eq.
           split; [done|]. split; [|done]. rewrite Hnew. by apply prefix_app_r.
      * rewrite (bind_raise _ _ _ _ _ Hrun). exists (messages state). by split_and!.
    + simpl. rewrite Hf.
      rewrite (bind_raise (lift (Raise (KeyError node))) _ w (KeyError node) w eq_refl).
      exists (messages state). by split_and!.
Qed.

End history.

(** X15.  A run starts from the conversation saved under thread ["1"] (none
    on a first run), appends the greeting to it, and from then on what is
    saved under the thread only grows, however the run ends: when the
    provider and the tool node reuse no stored id, the conversation saved at
    the end of the run starts with the restored conversation followed by the
    greeting.  A restart thus resumes the saved conversation and greets
    again. *)
Theorem run_keeps_history `{ToolNodeAPI} (self : Agent) (g : CompiledGraph) (w : World)
  (old : list BaseMessage) :
  agent self = Some g →
  default [] (checkpoints w !! "1") = old →
  has_ids old →
  provider_ids_new w →
  tool_node_ids_new →
  ∃ i ms, checkpoints (run self w).2 !! "1" = Some ms
          ∧ (old ++ [AIMessage (Str "What can I do for you?") [] (Some i)]) `prefix_of` ms
          ∧ has_ids ms.
Proof.
  intros Hagent Hold Hids Hprovider Hnode.
  destruct (add_messages_one old greeting Hids)
    as (stored & Hadd & Hrole & Hcontent & Hcalls & _ & [i Hi] & _); [by intros i|].
  assert (stored = AIMessage (Str "What can I do for you?") [] (Some i)) as ->.
  { destruct stored; simpl in *; try done. by simplify_eq. }
  exists i.
  unfold run. rewrite Hagent.
  rewrite (bind_ok (getattr "agent" (Some g)) _ w g w eq_refl).
  unfold graph_ainvoke.
  rewrite (bind_ok get _ w w w eq_refl).
  erewrite bind_ok by reflexivity. rewrite Hold, Hadd.
  destruct (entry_point (graph g)) as [node|].
  - match goal with |- context [steps self g "1" _ node ?st ?w2] =>
      destruct (steps_history self g "1" default_recursion_limit node st w2)
        as (ms & Hms & Hprefix & Hhas);
        [ simpl; rewrite <- Hadd; apply add_messages_has_ids
        | exact Hprovider | exact Hnode | simpl; apply lookup_insert_eq | ]
    end.
    exists ms. split; [exact Hms|]. by split.
  - eexists. simpl. rewrite lookup_insert_eq. split; [done|]. split; [done|].
    rewrite <- Hadd. apply add_messages_has_ids.
Qed.

Lemma run_keeps_history_witness :
  let old := [ AIMessage (Str "What can I do for you?") [] (Some "u");
               HumanMessage (Str "hello") (Some "uu");
               AIMessage (Str "Hi there!") [] (Some "uuu") ] in
  let w := with_checkpoints {[ "1" := old ]} sample_world in
  ∃ i ms, checkpoints (run (H := langgraph.api true) sample_agent w).2 !! "1" = Some ms
          ∧ (old ++ [AIMessage (Str "What can I do for you?") [] (Some i)]) `prefix_of` ms
          ∧ has_ids ms.
Proof.
  intros old w.
  refine (run_keeps_history (H := langgraph.api true) sample_agent sample_graph w old
            _ _ _ _ _).
  - vm_compute. reflexivity.
  - vm_compute. reflexivity.
  - repeat constructor; simpl; eauto.
  - exact plain_reply_ids_new.
  - exact (langgraph_ids_new true).
Defined.

(** ** A graph without an end *)

Lemma sample_workflow :
  workflow sample_agent0
  = {| nodes := [ ("user_input", self_user_input);
                  ("model_response", self_model_response);
                  ("tool_use", self_tool_use) ];
       entry_point := Some "user_input";
       edges := [("user_input", "model_response"); ("tool_use", "model_response")];
       branches := [ ("model_response",
                      (self_check_tool_use,
                       [("tool_use", "tool_use"); ("user_input", "user_input")])) ] |}.
Proof. vm_compute. reflexivity. Qed.

Lemma check_tool_use_values self state key :
  check_tool_use self state = Ok key → key = "tool_use" ∨ key = "user_input".
Proof.
  unfold check_tool_use. destruct (index_last (messages state)) as [m|]; [|done].
  simpl. destruct (get_tool_calls m) as [tcs|]; [|done]. simpl.
  destruct (truthy tcs); intros [= <-]; eauto.
Qed.

(** In the graph of the constructor, every node has a node to go to. *)
Lemma successor_next self g node state f :
  graph g = workflow sample_agent0 →
  assoc node (nodes (graph g)) = Some f →
  successor self (graph g) node state ≠ Ok None.
Proof.
  intros Hg. rewrite Hg, sample_workflow. unfold successor. simpl.
  destruct (decide (node = "user_input")) as [->|Hu]; [done|].
  destruct (decide (node = "model_response")) as [->|Hm].
  - intros _. simpl.
    destruct (check_tool_use self state) as [key|e] eqn:Hkey; [|done].
    by destruct (check_tool_use_values _ _ _ Hkey) as [-> | ->].
  - destruct (decide (node = "tool_use")) as [->|Ht]; done.
Qed.

Section endless.
Context `{ToolNodeAPI}.

Lemma steps_raise self g thread_id limit node state w :
  graph g = workflow sample_agent0 →
  ∃ e w', steps self g thread_id limit node state w = (Raise e, w').
Proof.
  intros Hg. revert node state w.
  induction limit as [|limit IH]; intros node state w; [by eexists _, _|].
  destruct (assoc node (nodes (graph g))) as [f|] eqn:Hf.
  - rewrite (steps_unfold _ _ _ _ _ _ _ _ Hf).
    destruct (run_node self f state w) as [[update|e] w1] eqn:Hrun.
    + rewrite (bind_ok _ _ _ _ _ Hrun). unfold after_node.
      erewrite bind_ok by reflexivity.
      pose proof (successor_next self g node
                    {| messages := add_messages (messages state) (messages update) |}
                    f Hg Hf) as Hnext.
      destruct (successor self (graph g) node _) as [[node'|]|e]; [|done|].
      * erewrite bind_ok by reflexivity. apply IH.
      * erewrite bind_raise by reflexivity. by eexists _, _.
    + rewrite (bind_raise _ _ _ _ _ Hrun). by eexists _, _.
  - simpl. rewrite Hf.
    rewrite (bind_raise (lift (Raise (KeyError node))) _ w (KeyError node) w eq_refl).
    by eexists _, _.
Qed.

Lemma run_raises self g w :
  agent self = Some g → graph g = workflow sample_agent0 →
  ∃ e w', run self w = (Raise e, w').
Proof.
  intros Hagent Hg. unfold run. rewrite Hagent.
  rewrite (bind_ok (getattr "agent" (Some g)) _ w g w eq_refl).
  unfold graph_ainvoke.
  rewrite (bind_ok get _ w w w eq_refl).
  erewrite bind_ok by reflexivity.
  destruct (entry_point (graph g)); [by apply steps_raise | by eexists _, _].
Qed.

End endless.

(** X16.  [async_main] never returns: the graph has no end, so [run] stops
    only on an exception (the end of the input, a failure of the provider or
    of a tool node, the recursion limit), and no statement of [async_main]
    catches it.  The call of [close_checkpointer] that ends [async_main] is
    never reached. *)
Theorem async_main_never_returns `{ToolNodeAPI} (w : World) :
  ∃ e w', async_main w = (Raise e, w').
Proof.
  unfold async_main.
  destruct (__init__ w) as [[self0|e] w1] eqn:Hinit;
    [|rewrite (bind_raise _ _ _ _ _ Hinit); by eexists _, _].
  rewrite (bind_ok _ _ _ _ _ Hinit).
  destruct (initialize (self0, w1)) as [[[]|e] [self w2]] eqn:Hinitialize.
  - erewrite bind_ok by (rewrite Hinitialize; reflexivity).
    destruct (initialized_agent _ _ _ _ _ Hinit Hinitialize) as (g & m & Hg & Hgraph & _).
    destruct (print_mermaid_workflow self w2) as [[[]|e] w3] eqn:Hprint.
    + rewrite (bind_ok _ _ _ _ _ Hprint).
      destruct (run_raises self g w3 Hg Hgraph) as (e & w' & Hrun).
      rewrite (bind_raise _ _ _ _ _ Hrun). by eexists _, _.
    + rewrite (bind_raise _ _ _ _ _ Hprint). by eexists _, _.
  - erewrite bind_raise by (rewrite Hinitialize; reflexivity). by eexists _, _.
Qed.

(** ** An id that comes twice *)

Lemma index_by_id_other i ms d key :
  key ∉ msg_id <$> ms → index_by_id i ms d !! key = d !! key.
Proof.
  revert i d. induction ms as [|m ms IH]; intros i d Hkey; simpl; [done|].
  rewrite fmap_cons in Hkey. apply not_elem_of_cons in Hkey as [Hne Hkey].
  rewrite IH by done. by rewrite lookup_insert_ne.
Qed.

Lemma index_by_id_lookup i ms d k old :
  NoDup (msg_id <$> ms) → ms !! k = Some old →
  index_by_id i ms d !! msg_id old = Some (i + k)%nat.
Proof.
  revert i d k. induction ms as [|m ms IH]; intros i d k Hnodup Hk; [done|].
  rewrite fmap_cons in Hnodup. apply NoDup_cons in Hnodup as [Hm Hnodup]. simpl.
  destruct k as [|k]; simpl in Hk.
  - injection Hk as <-. rewrite index_by_id_other by done.
    rewrite lookup_insert_eq. f_equal. lia.
  - rewrite (IH _ _ k) by done. f_equal. lia.
Qed.

(** The reducer on one message whose id is stored: the stored message is
    replaced, in its place. *)
Lemma add_messages_replaces left m k old :
  has_ids left → NoDup (msg_id <$> left) →
  left !! k = Some old → msg_id old = msg_id m →
  add_messages left [m] = <[k := m]> left.
Proof.
  intros Hids Hnodup Hk Hid. unfold add_messages.
  rewrite (assign_ids_id _ _ Hids).
  assert (has_ids [m]) as Hm.
  { constructor; [|constructor]. rewrite <- Hid.
    by eapply (proj1 (Forall_lookup _ _) Hids). }
  rewrite (assign_ids_id _ _ Hm). simpl.
  rewrite <- Hid, (index_by_id_lookup 0 left ∅ k old Hnodup Hk). reflexivity.
Qed.

(** X17.  The conversation is appended to only as long as ids are new: when
    the provider names its response by the id of a stored message, the
    model-response step does not add a message, the response takes the place
    of the stored one and the conversation keeps its length. *)
Theorem reused_id_replaces (self : Agent) (state : AgentState) (w : World)
  (m : ChatAnthropic * list BaseTool) (c : Completion) (k : nat) (old : BaseMessage) :
  let prompt :=
    SystemMessage (Blocks [TextBlock (Some system_text) (Some "ephemeral")]) None
    :: HumanMessage (Str ("Working directory: " +:+ os_getcwd w)) None
    :: messages state in
  let response := AIMessage (c_content c) (c_tool_calls c) (c_id c) in
  model_with_tools self = Some m →
  anthropic w (name <$> m.2) prompt = Ok c →
  has_ids (messages state) →
  NoDup (msg_id <$> messages state) →
  messages state !! k = Some old →
  msg_id old = c_id c →
  ∃ w', model_response self state w = (Ok {| messages := [response] |}, w')
        ∧ add_messages (messages state) [response] = <[k := response]> (messages state)
        ∧ length (add_messages (messages state) [response]) = length (messages state).
Proof.
  intros prompt response Hm Hc Hids Hnodup Hk Hid.
  destruct (model_response_run self state w m Hm) as (evs & _ & Hrun).
  fold prompt in Hrun. rewrite Hc in Hrun.
  eexists. split; [exact Hrun|].
  rewrite (add_messages_replaces (messages state) response k old) by done.
  split; [done|]. apply length_insert.
Qed.

Lemma reused_id_replaces_witness :
  let state := {| messages := [ AIMessage (Str "What can I do for you?") [] (Some "u");
                                HumanMessage (Str "hello") (Some "uu") ] |} in
  let response := AIMessage (Str "Hi there!") [] (Some "u") in
  ∃ w', model_response sample_agent state reusing_world
        = (Ok {| messages := [response] |}, w')
        ∧ add_messages (messages state) [response] = <[0 := response]> (messages state)
        ∧ length (add_messages (messages state) [response]) = length (messages state).
Proof.
  intros state response.
  refine (reused_id_replaces sample_agent state reusing_world
            (model sample_agent, [passing_tool; broken_tool])
            {| c_content := Str "Hi there!"; c_tool_calls := []; c_id := Some "u" |}
            0 (AIMessage (Str "What can I do for you?") [] (Some "u")) _ _ _ _ _ _).
  - vm_compute. reflexivity.
  - reflexivity.
  - repeat constructor; simpl; eauto.
  - simpl. repeat constructor; intros Hin;
      repeat (apply elem_of_cons in Hin as [Hin|Hin]; [discriminate|]);
      by apply elem_of_nil in Hin.
  - reflexivity.
  - reflexivity.
Defined.

(** ** Where a response leads *)

Lemma extends_after {A B} (c : St World A) (k : A → St World B) (w : World)
  (pre : list Event) :
  console (c w).2 = console w ++ pre →
  (∀ a, extends (k a)) →
  ∃ more, console ((c ≫= k) w).2 = console w ++ pre ++ more.
Proof.
  intros Hc Hk. destruct (c w) as [[a|e] w1] eqn:Hcw; simpl in Hc.
  - rewrite (bind_ok _ _ _ _ _ Hcw). destruct (Hk a w1) as [more ->].
    exists more. by rewrite Hc, (assoc_L (++)).
  - rewrite (bind_raise _ _ _ _ _ Hcw). exists []. by rewrite app_nil_r.
Qed.

Section routing.
Context `{ToolNodeAPI}.

(** The loop on a batch that is not empty opens with the announcement of
    the first call. *)
Lemma tool_use_loop_opens tools_by_name state tc tcs response w :
  ∃ more, console (tool_use_loop tools_by_name state (tc :: tcs) response w).2
          = console w ++ EvInvoking (tc_name tc) (tc_args tc) :: more.
Proof.
  simpl. rewrite (bind_ok _ _ _ _ _ (emit_logged _ _)).
  match goal with |- ∃ _, console (?c _).2 = _ => assert (extends c) as Hrest end.
  { apply extends_bind; [apply extends_emit|intros _].
    apply extends_bind; [by apply extends_silent|intros node].
    apply extends_bind; [apply extends_attempt|intros r].
    apply extends_tool_use_loop. }
  destruct (Hrest (logged [EvInvoking (tc_name tc) (tc_args tc)] w)) as [more ->].
  exists more. simpl. by rewrite <- (assoc_L (++)).
Qed.

Lemma steps_open_with_tool_use self g thread_id limit node state ts ms c tc tcs i w :
  assoc node (nodes (graph g)) = Some self_tool_use →
  tools self = Some ts →
  messages state = ms ++ [AIMessage c (tc :: tcs) i] →
  ∃ more, console (steps self g thread_id (S limit) node state w).2
          = console w ++ EvInvoking (tc_name tc) (tc_args tc) :: more.
Proof.
  intros Hnode Htools Hmessages.
  rewrite (steps_unfold _ _ _ _ _ _ _ _ Hnode). simpl run_node.
  destruct (tool_use_loop_opens (by_name ts) state tc tcs [] w) as [more1 Hloop].
  destruct (extends_after (tool_use self state)
              (after_node self g thread_id limit node state) w
              (EvInvoking (tc_name tc) (tc_args tc) :: more1)) as [more Hmore].
  - rewrite (tool_use_on_batch _ _ _ _ _ _ _ _ Htools Hmessages).
    by destruct (tool_use_loop (by_name ts) state (tc :: tcs) [] w) as [[r|e] w'].
  - intros update. apply extends_after_node.
  - exists (more1 ++ more). rewrite Hmore. by rewrite <- app_comm_cons.
Qed.

End routing.

(** X18.  In the graph of an initialised agent, a step on [model_response]
    whose response comes under a new id is followed, after the response is
    shown, by the tool step on the first call of the response when it has
    tool calls, and by the prompt for the user's input when it has none. *)
Theorem response_routes `{ToolNodeAPI} (w0 w1 w2 w : World) (self0 self : Agent)
  (g : CompiledGraph) (thread_id : string) (limit : nat) (state : AgentState)
  (m : ChatAnthropic * list BaseTool) (c : Completion) :
  let prompt :=
    SystemMessage (Blocks [TextBlock (Some system_text) (Some "ephemeral")]) None
    :: HumanMessage (Str ("Working directory: " +:+ os_getcwd w)) None
    :: messages state in
  __init__ w0 = (Ok self0, w1) →
  initialize (self0, w1) = (Ok (), (self, w2)) →
  agent self = Some g →
  model_with_tools self = Some m →
  anthropic w (name <$> m.2) prompt = Ok c →
  has_ids (messages state) →
  fresh_for (ids_of (messages state)) (AIMessage (c_content c) (c_tool_calls c) (c_id c)) →
  ∃ shown more,
    prompts shown = []
    ∧ console (steps self g thread_id (S (S limit)) "model_response" state w).2
      = console w ++ EvInvokeModel (name <$> m.2) prompt :: shown
        ++ match c_tool_calls c with
           | [] => EvUserInput
           | tc :: _ => EvInvoking (tc_name tc) (tc_args tc)
           end :: more.
Proof.
  intros prompt Hinit Hinitialize Hagent Hm Hc Hids Hfresh.
  destruct (initialized_agent _ _ _ _ _ Hinit Hinitialize)
    as (g' & m' & Hg' & Hgraph & Hm' & Htools).
  rewrite Hagent in Hg'. injection Hg' as <-.
  rewrite Hm in Hm'. injection Hm' as <-.
  destruct (model_response_run self state w m Hm) as (shown & Hshown & Hrun).
  fold prompt in Hrun. rewrite Hc in Hrun.
  destruct (add_messages_one _ _ Hids Hfresh)
    as (stored & Hadd & Hrole & _ & Hcalls & _ & _ & _).
  exists shown.
  assert (assoc "model_response" (nodes (graph g)) = Some self_model_response) as Hnode
    by (rewrite Hgraph; vm_compute; reflexivity).
  rewrite (steps_unfold _ _ _ _ _ _ _ _ Hnode). simpl run_node.
  rewrite (bind_ok _ _ _ _ _ Hrun). unfold after_node.
  erewrite bind_ok by reflexivity. simpl messages. rewrite Hadd.
  assert (check_tool_use self {| messages := messages state ++ [stored] |}
          = Ok (if truthy (c_tool_calls c) then "tool_use" else "user_input")) as Hroute.
  { unfold check_tool_use, index_last. simpl. rewrite last_snoc. simpl.
    rewrite Hcalls. simpl. by destruct (truthy (c_tool_calls c)). }
  assert (successor self (graph g) "model_response"
            {| messages := messages state ++ [stored] |}
          = Ok (Some (if truthy (c_tool_calls c) then "tool_use" else "user_input")))
    as Hnext.
  { rewrite Hgraph, sample_workflow. unfold successor. simpl. rewrite Hroute. simpl.
    by destruct (truthy (c_tool_calls c)). }
  rewrite Hnext. erewrite bind_ok by reflexivity. cbv beta iota.
  destruct (c_tool_calls c) as [|tc tcs] eqn:Htcs; simpl truthy; cbv beta iota.
  - match goal with |- context [steps self g thread_id (S limit) _ ?st ?w'] =>
      destruct (steps_open_with_user_input self g thread_id limit "user_input" st w')
        as [more ->]
    end.
    { rewrite Hgraph. vm_compute. reflexivity. }
    exists more. split; [done|]. simpl. by rewrite <- (assoc_L (++)).
  - destruct stored as [sc stcs si| | |]; try done. simpl in Hcalls.
    injection Hcalls as ->.
    match goal with |- context [steps self g thread_id (S limit) _ ?st ?w'] =>
      destruct (steps_open_with_tool_use self g thread_id limit "tool_use" st m.2
                  (messages state) sc tc tcs si w') as [more ->]
    end; try done.
    { rewrite Hgraph. vm_compute. reflexivity. }
    exists more. split; [done|]. simpl. by rewrite <- (assoc_L (++)).
Qed.

Lemma response_routes_witness :
  let state := {| messages := [ AIMessage (Str "What can I do for you?") [] (Some "u");
                                HumanMessage (Str "hello") (Some "uu") ] |} in
  let prompt :=
    SystemMessage (Blocks [TextBlock (Some system_text) (Some "ephemeral")]) None
    :: HumanMessage (Str "Working directory: /work") None
    :: messages state in
  ∃ shown more,
    prompts shown = []
    ∧ console (steps (H := langgraph.api true) sample_agent sample_graph "1" 25
                 "model_response" state sample_world).2
      = console sample_world
        ++ EvInvokeModel ["run_unit_tests"; "broken_tool"] prompt :: shown
        ++ EvUserInput :: more.
Proof.
  intros state prompt.
  refine (response_routes (H := langgraph.api true)
            sample_world (__init__ sample_world).2
            (initialize (sample_agent0, (__init__ sample_world).2)).2.2
            sample_world sample_agent0 sample_agent sample_graph "1" 23 state
            (model sample_agent, [passing_tool; broken_tool])
            {| c_content := Str "Hi there!"; c_tool_calls := []; c_id := Some "uuu" |}
            _ _ _ _ _ _ _).
  - vm_compute. reflexivity.
  - vm_compute. reflexivity.
  - vm_compute. reflexivity.
  - vm_compute. reflexivity.
  - vm_compute. reflexivity.
  - repeat constructor; simpl; eauto.
  - intros i [= <-]. vm_compute. intros Hin.
    repeat (apply elem_of_cons in Hin as [Hin | Hin]; [discriminate|]).
    by apply elem_of_nil in Hin.
Defined.

(** X19.  The graph catches nothing: when the function of a node raises,
    the run ends with that exception, and what is saved under the thread is
    what was saved before the step.  So a batch of tool calls is merged into
    the conversation as a whole or not at all. *)
Theorem node_failure_ends_run `{ToolNodeAPI} (self : Agent) (g : CompiledGraph)
  (thread_id node : string) (limit : nat) (f : NodeFn) (state : AgentState)
  (w w' : World) (e : exn) :
  assoc node (nodes (graph g)) = Some f →
  run_node self f state w = (Raise e, w') →
  steps self g thread_id (S limit) node state w = (Raise e, w')
  ∧ checkpoints w' = checkpoints w.
Proof.
  intros Hnode Hrun. split.
  - rewrite (steps_unfold _ _ _ _ _ _ _ _ Hnode). by apply bind_raise.
  - destruct (run_node_world self f state w) as (evs & lines & Hw).
    rewrite Hrun in Hw. simpl in Hw. by subst w'.
Qed.

Lemma node_failure_ends_run_witness :
  let state := asks [call "run_unit_tests" "call_1"; call "list_files" "call_2"] in
  let out := tool_use (H := langgraph.api true) sample_agent state sample_world in
  steps (H := langgraph.api true) sample_agent sample_graph "1" 25 "tool_use" state
    sample_world
  = (Raise (AttributeError "function" "name"), out.2)
  ∧ checkpoints out.2 = checkpoints sample_world.
Proof.
  intros state out.
  refine (node_failure_ends_run (H := langgraph.api true) sample_agent sample_graph "1"
            "tool_use" 24 self_tool_use state sample_world out.2
            (AttributeError "function" "name") _ _).
  - vm_compute. reflexivity.
  - vm_compute. reflexivity.
Defined.

(** ** The response in the conversation *)








(** ** The first turn, from the greeting *)

(** C8.  [run] seeds the conversation of its thread with the greeting, an
    assistant message without tool calls: it is the graph entered at
    [user_input] on the saved conversation merged with the greeting, saved
    under the thread at once.  The first thing the run does, in any world, is
    to prompt the user: no model is asked and no tool is run before; with no
    line to read the run ends there, the seeded conversation being all that
    is saved.  On a first run, with nothing saved under the thread, the
    seeded conversation is the greeting alone; the router would send it to
    ["user_input"] (the graph does not ask it there: [user_input] is its
    entry point), and once the user gives a line the first prompt the model
    is sent is the preamble, the working directory, the greeting, and that
    line. *)
Theorem first_turn_awaits_user `{ToolNodeAPI} (w0 w1 w2 w : World) (self0 self : Agent) :
  __init__ w0 = (Ok self0, w1) →
  initialize (self0, w1) = (Ok (), (self, w2)) →
  ∃ g,
    let seeded :=
      {| messages := add_messages (default [] (checkpoints w !! "1")) [greeting] |} in
    let w_seeded := with_checkpoints (<["1" := messages seeded]> (checkpoints w)) w in
    agent self = Some g
    ∧ role greeting = assistant
    ∧ content greeting = Str "What can I do for you?"
    ∧ get_tool_calls greeting = Ok []
    ∧ entry_point (workflow self) = Some "user_input"
    ∧ run self w = steps self g "1" default_recursion_limit "user_input" seeded w_seeded
    ∧ (∃ evs, console (run self w).2 = console w ++ EvUserInput :: evs)
    ∧ (stdin w = [] → run self w = (Raise EOFError, logged [EvUserInput] w_seeded))
    ∧ (checkpoints w !! "1" = None →
       ∃ i, messages seeded = [AIMessage (Str "What can I do for you?") [] (Some i)]
            ∧ check_tool_use self seeded = Ok "user_input"
            ∧ ∀ line rest, stdin w = line :: rest →
              ∃ j more,
                prompts (console (run self w).2)
                = prompts (console w)
                  ++ [ [ SystemMessage
                           (Blocks [TextBlock (Some system_text) (Some "ephemeral")]) None;
                         HumanMessage (Str ("Working directory: " +:+ os_getcwd w)) None;
                         AIMessage (Str "What can I do for you?") [] (Some i);
                         HumanMessage (Str line) (Some j) ] ]
                  ++ more).
Proof.
  intros Hinit Hinitialize.
  destruct (init_built _ _ _ Hinit) as (Hflag & Hentry & Hnode).
  destruct (initialize_first _ _ _ _ Hflag Hinitialize)
    as (_ & Hworkflow & g & Hagent & Hgraph).
  destruct (initialized_agent _ _ _ _ _ Hinit Hinitialize)
    as (g' & m & Hg' & Hsample & Hm & _).
  rewrite Hagent in Hg'. injection Hg' as <-.
  rewrite <- Hgraph in Hentry, Hnode.
  exists g. intros seeded w_seeded.
  assert (run self w
          = steps self g "1" default_recursion_limit "user_input" seeded w_seeded) as Hrun.
  { unfold run. rewrite Hagent.
    rewrite (bind_ok (getattr "agent" (Some g)) _ w g w eq_refl).
    unfold graph_ainvoke.
    rewrite (bind_ok get _ w w w eq_refl).
    erewrite bind_ok by reflexivity.
    rewrite Hentry. reflexivity. }
  split_and!; try done.
  - by rewrite Hworkflow, <- Hgraph.
  - rewrite Hrun.
    edestruct (steps_open_with_user_input self g "1" 24 "user_input" seeded w_seeded)
      as [evs Hevs]; [exact Hnode|].
    exists evs. exact Hevs.
  - intros Hin. rewrite Hrun. unfold default_recursion_limit.
    rewrite (steps_unfold _ _ _ _ _ _ _ _ Hnode). simpl run_node.
    apply bind_raise. unfold user_input, console_input. st_run.
    change (stdin w_seeded) with (stdin w). by rewrite Hin.
  - intros Hnone.
    assert (messages seeded = [AIMessage (Str "What can I do for you?") [] (Some "u")])
      as Hseeded.
    { unfold seeded. rewrite Hnone. vm_compute. reflexivity. }
    exists "u". split; [exact Hseeded|]. split.
    { unfold check_tool_use. by rewrite Hseeded. }
    intros line rest Hin. rewrite Hrun.
    destruct (add_messages_one (messages seeded) (HumanMessage (Str line) None))
      as (stored & Hadd & Hrole & Hcontent & _ & _ & [j Hj] & _);
      [rewrite Hseeded; repeat constructor; simpl; eauto | by intros j |].
    assert (stored = HumanMessage (Str line) (Some j)) as ->.
    { destruct stored; simpl in *; try done. by subst. }
    destruct (steps_then_model_response self g "1" 23 "user_input" self_user_input
                seeded w_seeded {| messages := [HumanMessage (Str line) None] |}
                [EvUserInput; EvInput line] rest m) as [more Hmore];
      try (rewrite Hsample; vm_compute; reflexivity); try done.
    { simpl. unfold user_input, console_input. st_run.
      change (stdin w_seeded) with (stdin w). rewrite Hin.
      unfold logged, with_console, with_stdin. simpl. by rewrite <- (assoc_L (++)). }
    exists j, more. unfold default_recursion_limit. rewrite Hmore.
    change (messages {| messages := [HumanMessage (Str line) None] |})
      with [HumanMessage (Str line) None].
    rewrite Hadd, Hseeded. reflexivity.
Qed.

Lemma first_turn_awaits_user_witness :
  ∃ g,
    let seeded :=
      {| messages := add_messages (default [] (checkpoints sample_world !! "1")) [greeting] |} in
    let w_seeded :=
      with_checkpoints (<["1" := messages seeded]> (checkpoints sample_world)) sample_world in
    agent sample_agent = Some g
    ∧ role greeting = assistant
    ∧ content greeting = Str "What can I do for you?"
    ∧ get_tool_calls greeting = Ok []
    ∧ entry_point (workflow sample_agent) = Some "user_input"
    ∧ run (H := langgraph.api true) sample_agent sample_world
      = steps (H := langgraph.api true) sample_agent g "1" default_recursion_limit
          "user_input" seeded w_seeded
    ∧ (∃ evs, console (run (H := langgraph.api true) sample_agent sample_world).2
              = console sample_world ++ EvUserInput :: evs)
    ∧ (stdin sample_world = [] →
       run (H := langgraph.api true) sample_agent sample_world
       = (Raise EOFError, logged [EvUserInput] w_seeded))
    ∧ (checkpoints sample_world !! "1" = None →
       ∃ i, messages seeded = [AIMessage (Str "What can I do for you?") [] (Some i)]
            ∧ check_tool_use sample_agent seeded = Ok "user_input"
            ∧ ∀ line rest, stdin sample_world = line :: rest →
              ∃ j more,
                prompts (console (run (H := langgraph.api true) sample_agent sample_world).2)
                = prompts (console sample_world)
                  ++ [ [ SystemMessage
                           (Blocks [TextBlock (Some system_text) (Some "ephemeral")]) None;
                         HumanMessage
                           (Str ("Working directory: " +:+ os_getcwd sample_world)) None;
                         AIMessage (Str "What can I do for you?") [] (Some i);
                         HumanMessage (Str line) (Some j) ] ]
                  ++ more).
Proof.
  refine (first_turn_awaits_user (H := langgraph.api true)
            sample_world (__init__ sample_world).2
            (initialize (sample_agent0, (__init__ sample_world).2)).2.2
            sample_world sample_agent0 sample_agent _ _).
  - vm_compute. reflexivity.
  - vm_compute. reflexivity.
Defined.
